(** * pshark: ASTERIX PCAP -> CSV batch converter (src/main.py)

    Shallow embedding of [generate_data_from_pcap] and of the dispatch in
    [PcapAsterix.__init__].

    Python [str] values are sequences of Unicode code points; they are
    modelled as [list Z].  The external decoder (tshark) is a function from
    the command line to its exit status and its two output streams, already
    decoded as text.  The file system is a finite map from file names to
    file contents.  Exceptions that escape a function are values of [exn]. *)

From Stdlib Require Import ZArith List String Ascii Bool Lia.
From stdpp Require Import base gmap list.
Import ListNotations.
Open Scope Z_scope.

Abbreviation text := (list Z).

(** Code points of an ASCII Rocq string literal. *)
Definition t (s : string) : text :=
  map (fun a => Z.of_nat (nat_of_ascii a)) (list_ascii_of_string s).

(** ** Character classes of CPython *)

(** [str.isspace]: bidirectional class WS, B or S, or category Zs. *)
Definition py_isspace (c : Z) : bool :=
  ((9 <=? c) && (c <=? 13)) || ((28 <=? c) && (c <=? 32)) ||
  (c =? 133) || (c =? 160) || (c =? 5760) ||
  ((8192 <=? c) && (c <=? 8202)) || (c =? 8232) || (c =? 8233) ||
  (c =? 8239) || (c =? 8287) || (c =? 12288).

(** Line boundaries of [str.splitlines] ([\r\n] is handled apart). *)
Definition py_linebreak (c : Z) : bool :=
  (c =? 10) || (c =? 11) || (c =? 12) || (c =? 13) ||
  (c =? 28) || (c =? 29) || (c =? 30) ||
  (c =? 133) || (c =? 8232) || (c =? 8233).

(** ** String methods *)

Fixpoint lstrip (s : text) : text :=
  match s with
  | [] => []
  | c :: r => if py_isspace c then lstrip r else s
  end.

(** [str.strip()] *)
Definition strip (s : text) : text := rev (lstrip (rev (lstrip s))).

(** [str.splitlines()]: [cur] is the current line, reversed. *)
Fixpoint splitlines_go (s : text) (cur : text) : list text :=
  match s with
  | [] => match cur with [] => [] | _ => [rev cur] end
  | c :: r =>
      if c =? 13 then
        match r with
        | d :: r' => if d =? 10 then rev cur :: splitlines_go r' []
                     else rev cur :: splitlines_go r []
        | [] => rev cur :: splitlines_go r []
        end
      else if py_linebreak c then rev cur :: splitlines_go r []
      else splitlines_go r (c :: cur)
  end.

Definition splitlines (s : text) : list text := splitlines_go s [].

(** [str.split(sep)] for a one-character separator. *)
Fixpoint split_go (sep : Z) (s : text) (cur : text) : list text :=
  match s with
  | [] => [rev cur]
  | c :: r => if c =? sep then rev cur :: split_go sep r []
              else split_go sep r (c :: cur)
  end.

Definition split (sep : Z) (s : text) : list text := split_go sep s [].

Definition semicolon : Z := 59.

(** Newline translation done by [Popen.communicate] in text mode:
    [data.replace("\r\n", "\n").replace("\r", "\n")]. *)
Fixpoint translate_newlines (s : text) : text :=
  match s with
  | [] => []
  | c :: r =>
      if c =? 13 then
        match r with
        | d :: r' => if d =? 10 then 10 :: translate_newlines r'
                     else 10 :: translate_newlines r
        | [] => [10]
        end
      else c :: translate_newlines r
  end.

(** ** [pathlib.PurePosixPath]: [name] and [stem] *)

(** Path components: separators collapse and [.] components are dropped. *)
Definition path_parts (p : text) : list text :=
  filter (fun c => negb (bool_decide (c = [])) && negb (bool_decide (c = t "."))) (split 47 p).

Definition path_name (p : text) : text := default [] (last (path_parts p)).

(** Index of the last occurrence of [c], as [str.rfind]. *)
Fixpoint rfind_go (c : Z) (s : text) (i : Z) (found : Z) : Z :=
  match s with
  | [] => found
  | d :: r => rfind_go c r (i + 1) (if d =? c then i else found)
  end.

Definition rfind (c : Z) (s : text) : Z := rfind_go c s 0 (-1).

(** [PurePath.stem]: [name[:i]] when [0 < i < len(name) - 1], else [name]. *)
Definition path_stem (p : text) : text :=
  let n := path_name p in
  let i := rfind 46 n in
  if (0 <? i) && (i <? Z.of_nat (length n) - 1) then firstn (Z.to_nat i) n else n.

(** ** Configuration (the loaded [config.toml]) and jobs *)

Record Item := { Key : text; Value : text }.

Record Config := {
  categories : gmap text (list Item);   (* config["categories"] *)
  tshark_path : text;                   (* config["tshark"]["path"] *)
  tshark_parameters : list text         (* config["tshark"]["parameters"] *)
}.

(** The tuple [(filename, category, timestamp, config)]. *)
Record Job := {
  filename : text;
  category : text;
  timestamp : bool;
  config : Config
}.

(** Exceptions that can leave the modelled code. *)
Inductive exn :=
| TypeError    (* iterating over None, None // 2 *)
| ValueError.  (* ProcessPoolExecutor(max_workers <= 0) *)

(** ** Python [dict] with insertion order, as an association list *)

(** [d[k] = v]: an existing key keeps its position, a new key goes last. *)
Fixpoint dict_set (d : list (text * text)) (k v : text) : list (text * text) :=
  match d with
  | [] => [(k, v)]
  | (k', v') :: r => if bool_decide (k' = k) then (k, v) :: r
                     else (k', v') :: dict_set r k v
  end.

(** [{item["Key"]: item["Value"] for item in items}] *)
Definition fields_table_of (items : list Item) : list (text * text) :=
  fold_left (fun d it => dict_set d (Key it) (Value it)) items [].

(** Lines 17-20: [inl TypeError] is the exception raised by iterating over
    the [None] returned by [.get]; [inr (inl msg)] is the early return. *)
Definition resolve_fields (cfg : Config) (cat : text)
  : exn + (text + list (text * text)) :=
  match categories cfg !! cat with
  | None => inl TypeError
  | Some items =>
      let ft := fields_table_of items in
      match ft with
      | [] => inr (inl (t "[ERROR] Table not found for CAT " ++ cat))
      | _ => inr (inr ft)
      end
  end.

(** Lines 24-35: the tshark command line. *)
Definition tshark_cmd (cfg : Config) (fname cat : text) (ts : bool)
  (fields : list (text * text)) : list text :=
  [tshark_path cfg; t "-r"; fname] ++ tshark_parameters cfg ++
  [t "-Y"; t "asterix.category==" ++ cat] ++
  (if ts then [t "-e"; t "frame.time_epoch"] else []) ++
  concat (map (fun kv => [t "-e"; snd kv]) fields).

(** ** [csv.writer(f, delimiter=";", quoting=csv.QUOTE_MINIMAL)] *)

Definition dquote : Z := 34.

(** A field is quoted when it holds the delimiter, the quote character or a
    character of the line terminator ["\r\n"]. *)
Definition needs_quotes (f : text) : bool :=
  existsb (fun c => (c =? semicolon) || (c =? dquote) || (c =? 13) || (c =? 10)) f.

(** Quote characters are doubled ([doublequote=True]). *)
Definition encode_field (f : text) : text :=
  if needs_quotes f
  then dquote :: concat (map (fun c => if c =? dquote then [dquote; dquote] else [c]) f)
       ++ [dquote]
  else f.

Fixpoint join (sep : text) (l : list text) : text :=
  match l with
  | [] => []
  | [x] => x
  | x :: r => x ++ sep ++ join sep r
  end.

(** [writer.writerow(row)]; a row made of one empty field is written as
    a quoted empty string. *)
Definition encode_row (row : list text) : text :=
  match row with
  | [[]] => [dquote; dquote; 13; 10]
  | _ => join [semicolon] (map encode_field row) ++ [13; 10]
  end.

Definition encode_rows (rows : list (list text)) : text :=
  concat (map encode_row rows).

(** ** The buffered writing loop (lines 54-72) *)

Definition buffer_size : Z := 10000.

(** One pass of [for line in ...]: returns the final buffer and the rows
    already handed to [writer.writerows], in order. *)
Fixpoint write_lines (lines : list text) (buffer written : list (list text))
  : list (list text) * list (list text) :=
  match lines with
  | [] => (buffer, written)
  | line :: rest =>
      let buffer' := buffer ++ [split semicolon line] in
      if buffer_size <=? Z.of_nat (length buffer')
      then write_lines rest [] (written ++ buffer')
      else write_lines rest buffer' written
  end.

(** Rows written to the CSV file: header, the loop, then the final flush. *)
Definition csv_rows (ts : bool) (field_keys : list text) (raw_data : text)
  : list (list text) :=
  let header := if ts then t "TIMESTAMP" :: field_keys else field_keys in
  let '(buffer, written) := write_lines (splitlines raw_data) [] [header] in
  match buffer with
  | [] => written
  | _ => written ++ buffer
  end.

(** ** The task [generate_data_from_pcap] *)

(** What [subprocess.run] observes of the decoder. *)
Record Proc := { returncode : Z; proc_stdout : text; proc_stderr : text }.

Abbreviation FS := (gmap text text).

(** The arrow of the success message, U+2192. *)
Definition arrow : text := [32; 8594; 32].

(** [generate_data_from_pcap(job)], with the decoder [tshark], the rendering
    [elapsed] of [time.time() - inicio] by [:.2f], and the file system of the
    current working directory.  Returns the raised exception or the returned
    message, and the new file system. *)
Definition generate_data_from_pcap (job : Job) (tshark : list text -> Proc)
  (elapsed : text) (fs : FS) : (exn + text) * FS :=
  let cfg := config job in
  let fname := filename job in
  match resolve_fields cfg (category job) with
  | inl e => (inl e, fs)
  | inr (inl msg) => (inr msg, fs)
  | inr (inr fields_table) =>
      let field_keys := map fst fields_table in
      let cmd := tshark_cmd cfg fname (category job) (timestamp job) fields_table in
      let p := tshark cmd in
      let out := translate_newlines (proc_stdout p) in
      let err := translate_newlines (proc_stderr p) in
      if negb (returncode p =? 0) then
        (inr (t "[ERROR] " ++ path_name fname ++ t ": " ++ strip err), fs)
      else
        let raw_data := strip out in
        match raw_data with
        | [] => (inr (t "[WARN] " ++ path_name fname ++ t ": empty output"), fs)
        | _ =>
            let outfile := path_stem fname ++ t ".csv" in
            let content := encode_rows (csv_rows (timestamp job) field_keys raw_data) in
            (inr (t "[OK] " ++ path_name fname ++ arrow ++ outfile ++
                  t " (" ++ elapsed ++ t "s)"),
             <[outfile := content]> fs)
        end
  end.

(** ** The dispatcher [PcapAsterix.__init__] *)

(** [os.cpu_count() // 2], evaluated when the [-j] argument is declared;
    [os.cpu_count()] may be [None]. *)
Definition default_jobs (cpu_count : option Z) : exn + Z :=
  match cpu_count with
  | None => inl TypeError
  | Some c => inr (c / 2)
  end.

(** Decimal rendering of an integer, as [str(n)]. *)
Fixpoint digits_go (fuel : nat) (n : Z) (acc : text) : text :=
  match fuel with
  | O => acc
  | S f => let d := 48 + n mod 10 in
           if n / 10 =? 0 then d :: acc else digits_go f (n / 10) (d :: acc)
  end.

Definition show_Z (n : Z) : text :=
  if n <? 0 then 45 :: digits_go (S (Z.to_nat (Z.log2 (- n)))) (- n) []
  else digits_go (S (Z.to_nat (Z.log2 n))) n [].

(** [glob(f"{directory}/*")] for a directory name without glob magic
    characters (see [has_magic]) whose entries, in [os.scandir] order, are
    [listing]: names starting with [.] are skipped and each remaining name
    is joined with the directory part of the pattern, as [os.path.split]
    and [os.path.join] compute it.  A directory name with magic characters
    is itself expanded as a pattern by [glob]; that case is not modelled
    and the theorems on directory mode exclude it. *)
Definition is_hidden (name : text) : bool :=
  match name with
  | c :: _ => c =? 46
  | [] => false
  end.

Fixpoint lstrip_char (ch : Z) (s : text) : text :=
  match s with
  | [] => []
  | c :: r => if c =? ch then lstrip_char ch r else s
  end.

(** [os.path.split(directory + "/*")[0]]: trailing slashes are removed
    unless the head is made of slashes only. *)
Definition glob_dirname (directory : text) : text :=
  let head := directory ++ [47] in
  if forallb (fun c => c =? 47) head then head
  else rev (lstrip_char 47 (rev head)).

(** [os.path.join(dirname, name)] *)
Definition path_join (a b : text) : text :=
  match last a with
  | Some 47 => a ++ b
  | _ => a ++ [47] ++ b
  end.

Definition glob_star (directory : text) (listing : list text) : list text :=
  map (path_join (glob_dirname directory)) (filter (fun n => negb (is_hidden n)) listing).

(** [glob.has_magic]: the text holds one of [*], [?] or [[]. *)
Definition has_magic (s : text) : bool :=
  existsb (fun c => (c =? 42) || (c =? 63) || (c =? 91)) s.

(** Command-line arguments after [parser.parse_args()]. *)
Record Args := {
  arg_file : option text;
  arg_directory : option text;
  arg_category : text;
  arg_timestamp : bool;
  arg_jobs : option Z   (* [-j], when given *)
}.

(** Truth value of an optional string. *)
Definition truthy (o : option text) : bool :=
  match o with Some (_ :: _) => true | _ => false end.

(** Observable actions: a [print], or a job handed to [executor.submit]. *)
Inductive Event :=
| Print (msg : text)
| Submit (j : Job).

Definition warn_sign : text := [9888; 65039].

(** What the process pool decides: the order in which the futures
    complete ([as_completed]), as indices into the submitted jobs, and the
    elapsed time each job renders in its result. *)
Record Pool := {
  completion : list nat;
  job_elapsed : nat -> text
}.

(** The workers, taken in completion order: each job runs
    [generate_data_from_pcap] to its end, its file write (if any) applied
    to the file system the previous ones left.  The file system is shared
    by all workers; two jobs with the same output name would race on one
    file, an interleaving this sequential order does not describe.  With
    [shutdown(wait=True)] every submitted job runs, also after a result
    has raised. *)
Fixpoint run_jobs (tshark : list text -> Proc) (js : list Job) (order : list nat)
  (tm : nat -> text) (fs : FS) : list (exn + text) * FS :=
  match order with
  | [] => ([], fs)
  | i :: rest =>
      match nth_error js i with
      | None => run_jobs tshark js rest tm fs
      | Some j =>
          let '(r, fs1) := generate_data_from_pcap j tshark (tm i) fs in
          let '(rs, fs2) := run_jobs tshark js rest tm fs1 in
          (r :: rs, fs2)
      end
  end.

(** Lines 126-127: [print(future.result())] in completion order;
    [result()] re-raises the exception of a job that raised. *)
Fixpoint print_results (rs : list (exn + text)) : list Event * option exn :=
  match rs with
  | [] => ([], None)
  | inl e :: _ => ([], Some e)
  | inr m :: r => let '(evs, e) := print_results r in (Print m :: evs, e)
  end.

(** Lines 110-129: directory mode.  [elapsed] is the total time of the
    last line. *)
Definition directory_mode (directory : text) (listing : list text) (cat : text)
  (ts : bool) (jobs : Z) (cfg : Config) (tshark : list text -> Proc) (pool : Pool)
  (elapsed : text) (fs : FS) : list Event * option exn * FS :=
  let files := glob_star directory listing in
  match files with
  | [] => ([Print (warn_sign ++ t " Nenhum PCAP em " ++ directory)], None, fs)
  | _ =>
      let header := Print ([9654; 32] ++ t "Processando " ++ show_Z (Z.of_nat (length files))
                           ++ t " arquivos com " ++ show_Z jobs ++ t " processos" ++ [10]) in
      let js := map (fun f => {| filename := f; category := cat;
                                 timestamp := ts; config := cfg |}) files in
      if jobs <=? 0 then ([header], Some ValueError, fs)
      else
        let '(rs, fs') := run_jobs tshark js (completion pool) (job_elapsed pool) fs in
        let '(evs, e) := print_results rs in
        let final := match e with
                     | None => [Print ([10; 10004] ++ t " Finalizado em " ++ elapsed ++ t "s")]
                     | Some _ => []
                     end in
        (header :: map Submit js ++ evs ++ final, e, fs')
  end.

(** [PcapAsterix.__init__] after [config.toml] has been loaded as [cfg].
    [listing] is the content of the directory of [-d], [pool] the
    scheduling of the process pool and [elapsed] the time printed last.
    The events are returned with the exception that ends the run, if any,
    and the final file system. *)
Definition pcap_asterix (cpu_count : option Z) (cfg : Config) (a : Args)
  (listing : list text) (pool : Pool) (tshark : list text -> Proc) (elapsed : text) (fs : FS)
  : list Event * option exn * FS :=
  match default_jobs cpu_count with
  | inl e => ([], Some e, fs)
  | inr dflt =>
      let jobs := default dflt (arg_jobs a) in
      if negb (truthy (arg_file a)) && negb (truthy (arg_directory a)) then
        ([Print ([10060; 32] ++ t "Use -f ou -d")], None, fs)
      else if truthy (arg_file a) then
        let '(r, fs') := generate_data_from_pcap
             {| filename := default [] (arg_file a); category := arg_category a;
                timestamp := arg_timestamp a; config := cfg |} tshark elapsed fs in
        match r with
        | inl e => ([], Some e, fs')
        | inr msg => ([Print msg], None, fs')
        end
      else
        directory_mode (default [] (arg_directory a)) listing (arg_category a)
          (arg_timestamp a) jobs cfg tshark pool elapsed fs
  end.


(** ** Helpers used in the statements *)

(** Header row of lines 60-63. *)
Definition header_row (ts : bool) (field_keys : list text) : list text :=
  if ts then t "TIMESTAMP" :: field_keys else field_keys.

(** Decoder output made of [lines], each terminated by a newline. *)
Definition unlines (lines : list text) : text :=
  concat (map (fun l => l ++ [10]) lines).

(** Keys in order of first occurrence ([seen] holds the keys met so far). *)
Fixpoint dedup_keys (ks seen : list text) : list text :=
  match ks with
  | [] => []
  | k :: r => if bool_decide (k ∈ seen) then dedup_keys r seen
              else k :: dedup_keys r (k :: seen)
  end.

(** The body of a quoted field, quote characters doubled. *)
Definition esc (f : text) : text :=
  concat (map (fun c => if c =? dquote then [dquote; dquote] else [c]) f).

(** A row of at least one field, written field by field: [;] between the
    fields, ["\r\n"] after the last one. *)
Fixpoint fields_enc (r : list text) : text :=
  match r with
  | [] => []
  | f :: fs => encode_field f ++ match fs with
                                 | [] => [13; 10]
                                 | _ => semicolon :: fields_enc fs
                                 end
  end.

(** ** Concrete inputs *)

Definition item (k v : text) : Item := {| Key := k; Value := v |}.

(** Category 48 with the fields SAC and SIC. *)
Definition cfg48 : Config := {|
  categories := <[t "48" := [item (t "SAC") (t "010.SAC"); item (t "SIC") (t "010.SIC")]]> ∅;
  tshark_path := t "tshark";
  tshark_parameters := [t "-T"; t "fields"; t "-E"; t "separator=;"]
|}.

Definition job48 (ts : bool) : Job :=
  {| filename := t "caps/a.pcap"; category := t "48"; timestamp := ts; config := cfg48 |}.

(** A decoder run that exits with [code] and prints [out] and [err]. *)
Definition decoder (code : Z) (out err : text) : list text -> Proc :=
  fun _ => {| returncode := code; proc_stdout := out; proc_stderr := err |}.

Definition nl : text := [10].

(** Category 48 configured with the key SAC twice. *)
Definition cfg_dup : Config := {|
  categories := <[t "48" := [item (t "SAC") (t "010.SAC"); item (t "SAC") (t "010.SIC")]]> ∅;
  tshark_path := t "tshark";
  tshark_parameters := [t "-T"; t "fields"]
|}.

(** Directory mode on [d]. *)
Definition args_dir (d : text) : Args :=
  {| arg_file := None; arg_directory := Some d; arg_category := t "48";
     arg_timestamp := false; arg_jobs := None |}.

(** A pool finishing the jobs in the order given, every job rendering
    [0.00]. *)
Definition pool_in (order : list nat) : Pool :=
  {| completion := order; job_elapsed := fun _ => t "0.00" |}.

(** ** Lemmas on the buffered writer *)

(** Rows already written followed by the buffer are the rows handed in so
    far, whatever the flush points. *)
Lemma write_lines_order (lines : list text) (buffer written : list (list text)) :
  let '(b, w) := write_lines lines buffer written in
  w ++ b = written ++ buffer ++ map (split semicolon) lines.
Proof.
  revert buffer written. induction lines as [|l ls IH]; intros buffer written; simpl.
  - by rewrite app_nil_r.
  - destruct (buffer_size <=? Z.of_nat (length (buffer ++ [split semicolon l]))).
    + specialize (IH [] (written ++ buffer ++ [split semicolon l])).
      destruct (write_lines ls _ _). rewrite IH. simpl. by rewrite <- !app_assoc.
    + specialize (IH (buffer ++ [split semicolon l]) written).
      destruct (write_lines ls _ _). rewrite IH. by rewrite <- !app_assoc.
Qed.


Lemma csv_rows_spec (ts : bool) (field_keys : list text) (raw_data : text) :
  csv_rows ts field_keys raw_data =
  header_row ts field_keys :: map (split semicolon) (splitlines raw_data).
Proof.
  unfold csv_rows, header_row.
  pose proof (write_lines_order (splitlines raw_data) []
                [if ts then t "TIMESTAMP" :: field_keys else field_keys]) as H.
  destruct (write_lines _ _ _) as [b w]. simpl in H.
  destruct b as [|r b]; [rewrite app_nil_r in H|]; simpl; exact H.
Qed.

(** The task, once the fields are resolved and the decoder succeeded with
    some non-blank output. *)
Lemma generate_success (job : Job) (tshark : list text -> Proc) (elapsed : text)
  (fs : FS) (ft : list (text * text)) :
  resolve_fields (config job) (category job) = inr (inr ft) ->
  let p := tshark (tshark_cmd (config job) (filename job) (category job) (timestamp job) ft) in
  returncode p = 0 ->
  strip (translate_newlines (proc_stdout p)) <> [] ->
  let outfile := path_stem (filename job) ++ t ".csv" in
  generate_data_from_pcap job tshark elapsed fs =
  (inr (t "[OK] " ++ path_name (filename job) ++ arrow ++ outfile ++
        t " (" ++ elapsed ++ t "s)"),
   <[outfile := encode_rows (header_row (timestamp job) (map fst ft) ::
        map (split semicolon) (splitlines (strip (translate_newlines (proc_stdout p)))))]> fs).
Proof.
  intros Hr p Hc Hne outfile. unfold generate_data_from_pcap. rewrite Hr.
  fold p. rewrite Hc. simpl.
  destruct (strip (translate_newlines (proc_stdout p))) eqn:E; [congruence|].
  rewrite <- E. rewrite csv_rows_spec. reflexivity.
Qed.

(** ** Lemmas on the text functions *)


Lemma translate_newlines_id (s : text) :
  (forall c, In c s -> c <> 13) -> translate_newlines s = s.
Proof.
  induction s as [|c r IH]; intros H; simpl; [done|].
  assert (c <> 13) by (apply H; left; done).
  destruct (Z.eqb_spec c 13); [lia|].
  rewrite IH; [done|]. intros d Hd. apply H. right. done.
Qed.

Lemma lstrip_id (s : text) :
  (forall c, hd_error s = Some c -> py_isspace c = false) -> lstrip s = s.
Proof.
  destruct s as [|c r]; intros H; simpl; [done|].
  by rewrite (H c eq_refl).
Qed.

Lemma unlines_join (lines : list text) :
  lines <> [] -> unlines lines = join [10] lines ++ [10].
Proof.
  induction lines as [|l [|l' ls] IH]; intros Hne; [done| |].
  - unfold unlines. simpl. rewrite app_nil_r. done.
  - change (unlines (l :: l' :: ls)) with ((l ++ [10]) ++ unlines (l' :: ls)).
    rewrite IH by done. simpl. by rewrite <- !app_assoc.
Qed.

Lemma join_hd (lines : list text) :
  Forall (fun l => l <> []) lines ->
  hd_error (join [10] lines) = hd_error (concat lines).
Proof.
  destruct lines as [|l [|l' ls]]; intros H; simpl; [done| |].
  - by rewrite app_nil_r.
  - inversion H; subst. destruct l; [done|]. done.
Qed.

Lemma join_last (lines : list text) :
  Forall (fun l => l <> []) lines ->
  last (join [10] lines) = last (concat lines).
Proof.
  induction lines as [|l [|l' ls] IH]; intros H; [done| |].
  - cbn [join concat]. by rewrite app_nil_r.
  - inversion H; subst.
    change (join [10] (l :: l' :: ls)) with (l ++ [10] ++ join [10] (l' :: ls)).
    change (concat (l :: l' :: ls)) with (l ++ concat (l' :: ls)).
    rewrite (app_assoc l [10]), !last_app, IH by done.
    inversion H3; subst.
    destruct (last (concat (l' :: ls))) eqn:E; [done|]. apply last_None in E.
    simpl in E. apply app_eq_nil in E as [-> _]. done.
Qed.

Lemma hd_rev_last (s : text) : hd_error (rev s) = last s.
Proof.
  induction s as [|c r IH]; [done|]. simpl.
  destruct r as [|d r']; [done|].
  rewrite last_cons_cons, <- IH. simpl.
  destruct (rev r' ++ [d]) eqn:E; [|done].
  by apply app_eq_nil in E as [_ ?].
Qed.

Lemma strip_unlines (lines : list text) :
  lines <> [] ->
  Forall (fun l => l <> []) lines ->
  (forall c, hd_error (concat lines) = Some c -> py_isspace c = false) ->
  (forall c, last (concat lines) = Some c -> py_isspace c = false) ->
  strip (unlines lines) = join [10] lines.
Proof.
  intros Hne Hl Hfirst Hlast. rewrite unlines_join by done. unfold strip.
  assert (Hj : join [10] lines <> []).
  { intros E. pose proof (join_hd lines Hl) as Hh. rewrite E in Hh.
    destruct lines as [|l ls]; [done|]. inversion Hl; subst.
    destruct l; [done|]. done. }
  rewrite (lstrip_id (join [10] lines ++ [10])).
  2:{ intros c Hc. apply Hfirst. rewrite <- join_hd by done.
      destruct (join [10] lines); [done|]. done. }
  rewrite rev_app_distr. simpl.
  rewrite lstrip_id, rev_involutive; [done|].
  intros c Hc. apply Hlast. rewrite <- join_last by done. by rewrite <- hd_rev_last.
Qed.

Lemma splitlines_go_app (l rest cur : text) :
  Forall (fun c => py_linebreak c = false) l ->
  splitlines_go (l ++ rest) cur = splitlines_go rest (rev l ++ cur).
Proof.
  revert cur. induction l as [|c r IH]; intros cur H; [done|].
  inversion H; subst. simpl.
  assert ((c =? 13) = false) as ->.
  { apply Z.eqb_neq. intros ->. done. }
  rewrite H2, IH by done. by rewrite <- app_assoc.
Qed.

Lemma splitlines_join (lines : list text) :
  Forall (fun l => l <> [] /\ Forall (fun c => py_linebreak c = false) l) lines ->
  splitlines (join [10] lines) = lines.
Proof.
  unfold splitlines.
  induction lines as [|l [|l' ls] IH]; intros H; [done| |].
  - inversion H as [|? ? [Hn Hb]]; subst. simpl.
    rewrite <- (app_nil_r l), splitlines_go_app, !app_nil_r by done.
    simpl. destruct (rev l) eqn:E.
    + apply (f_equal (@rev Z)) in E. rewrite rev_involutive in E. done.
    + by rewrite <- E, rev_involutive.
  - inversion H as [|? ? [Hn Hb] Ht]; subst.
    change (join [10] (l :: l' :: ls)) with (l ++ [10] ++ join [10] (l' :: ls)).
    rewrite splitlines_go_app by done. rewrite app_nil_r.
    assert (Hnl : forall J cur, splitlines_go (10 :: J) cur = rev cur :: splitlines_go J [])
      by reflexivity.
    change ([10] ++ ?J) with (10 :: J). rewrite Hnl, rev_involutive. f_equal. by apply IH.
Qed.

Lemma unlines_no_cr (lines : list text) :
  Forall (fun l => l <> [] /\ Forall (fun c => py_linebreak c = false) l) lines ->
  forall c, In c (unlines lines) -> c <> 13.
Proof.
  intros H c Hc. unfold unlines in Hc. apply in_concat in Hc as [x [Hx Hcx]].
  apply in_map_iff in Hx as [l [<- Hl]].
  apply in_app_or in Hcx as [Hcl|[<-|[]]]; [|done].
  rewrite List.Forall_forall in H. destruct (H l Hl) as [_ Hb].
  rewrite List.Forall_forall in Hb. specialize (Hb c Hcl).
  intros ->. done.
Qed.

Lemma lstrip_all_space (s : text) :
  Forall (fun c => py_isspace c = true) s -> lstrip s = [].
Proof.
  induction s as [|c r IH]; intros H; [done|].
  inversion H; subst. simpl. rewrite H2. by apply IH.
Qed.

Lemma translate_newlines_space (s : text) :
  Forall (fun c => py_isspace c = true) s ->
  Forall (fun c => py_isspace c = true) (translate_newlines s).
Proof.
  induction s as [s IH] using (induction_ltof1 _ (@length Z)); intros H.
  destruct s as [|c r]; simpl; [done|].
  inversion H as [|? ? Hc Hr]; subst.
  destruct (c =? 13).
  - destruct r as [|d r']; [by repeat constructor|].
    inversion Hr as [|? ? Hd Hr']; subst.
    destruct (d =? 10); constructor; try done; apply IH; try done;
      unfold ltof; simpl; lia.
  - constructor; [done|]. apply IH; [unfold ltof; simpl; lia|done].
Qed.


Lemma dedup_keys_ext (ks s1 s2 : list text) :
  (forall x, x ∈ s1 <-> x ∈ s2) -> dedup_keys ks s1 = dedup_keys ks s2.
Proof.
  revert s1 s2. induction ks as [|k r IH]; intros s1 s2 H; [done|]. simpl.
  destruct (bool_decide_reflect (k ∈ s1)), (bool_decide_reflect (k ∈ s2));
    try (exfalso; naive_solver).
  - by apply IH.
  - f_equal. apply IH. intros x. rewrite !elem_of_cons. naive_solver.
Qed.

Lemma dict_set_keys (d : list (text * text)) (k v : text) :
  map fst (dict_set d k v) =
  if bool_decide (k ∈ map fst d) then map fst d else map fst d ++ [k].
Proof.
  induction d as [|[k' v'] r IH]; simpl; [done|].
  destruct (bool_decide_reflect (k' = k)) as [->|E].
  - rewrite bool_decide_true by (rewrite elem_of_cons; left; done). done.
  - simpl. rewrite IH. rewrite (bool_decide_ext (k ∈ k' :: map fst r) (k ∈ map fst r)).
    + by destruct (bool_decide (k ∈ map fst r)).
    + rewrite elem_of_cons. naive_solver.
Qed.

Lemma fields_table_keys_go (items : list Item) (d : list (text * text)) :
  map fst (fold_left (fun d it => dict_set d (Key it) (Value it)) items d) =
  map fst d ++ dedup_keys (map Key items) (map fst d).
Proof.
  revert d. induction items as [|it r IH]; intros d; simpl; [by rewrite app_nil_r|].
  rewrite IH, dict_set_keys.
  case_bool_decide; [done|].
  rewrite <- app_assoc. f_equal. simpl. f_equal. apply dedup_keys_ext.
  intros x. set_solver.
Qed.

Lemma fields_table_keys (items : list Item) :
  map fst (fields_table_of items) = dedup_keys (map Key items) [].
Proof. unfold fields_table_of. by rewrite fields_table_keys_go. Qed.

Lemma dedup_keys_nodup (ks seen : list text) :
  NoDup ks -> (forall x, x ∈ ks -> x ∉ seen) -> dedup_keys ks seen = ks.
Proof.
  revert seen. induction ks as [|k r IH]; intros seen Hnd Hs; [done|]. simpl.
  inversion Hnd; subst.
  rewrite bool_decide_false by (apply Hs; rewrite elem_of_cons; left; done).
  f_equal. apply IH; [done|]. intros x Hx. rewrite elem_of_cons.
  intros [->|Hxs]; [done|]. apply (Hs x); [rewrite elem_of_cons; right; done|done].
Qed.

Lemma print_results_prints (rs : list (exn + text)) :
  Forall (fun ev => exists m, ev = Print m) (fst (print_results rs)).
Proof.
  induction rs as [|[e|m] r IH]; simpl; [constructor|constructor|].
  destruct (print_results r) as [evs e]. simpl in *. constructor; [by eexists|done].
Qed.

Lemma pcap_asterix_directory (cpu_count : option Z) (dflt : Z) (cfg : Config) (a : Args)
  (listing : list text) (pool : Pool) (tshark : list text -> Proc) (elapsed : text)
  (fs : FS) (d : text) :
  default_jobs cpu_count = inr dflt -> truthy (arg_file a) = false ->
  arg_directory a = Some d -> d <> [] ->
  pcap_asterix cpu_count cfg a listing pool tshark elapsed fs =
  directory_mode d listing (arg_category a) (arg_timestamp a) (default dflt (arg_jobs a))
    cfg tshark pool elapsed fs.
Proof.
  intros Hj Hf Hd Hne. unfold pcap_asterix. rewrite Hj, Hf, Hd.
  destruct d; [done|]. reflexivity.
Qed.

(** ** Claims *)

(** C1 (code_bug).  A category absent from [config["categories"]] makes
    [.get] return [None]; the dict comprehension of line 18 then iterates
    over [None] and raises [TypeError] before the guard of line 19, so the
    task raises instead of returning an error message. *)
Theorem C1_absent_category_raises (job : Job) (tshark : list text -> Proc)
  (elapsed : text) (fs : FS) :
  categories (config job) !! category job = None ->
  generate_data_from_pcap job tshark elapsed fs = (inl TypeError, fs).
Proof.
  intros H. unfold generate_data_from_pcap, resolve_fields. by rewrite H.
Qed.

Lemma C1_absent_category_raises_witness :
  categories (config (job48 false)) !! t "21" = None /\
  generate_data_from_pcap {| filename := t "a.pcap"; category := t "21";
                             timestamp := false; config := cfg48 |}
    (decoder 0 [] []) (t "0.00") ∅ = (inl TypeError, ∅).
Proof.
  split; [reflexivity|].
  apply (C1_absent_category_raises
           {| filename := t "a.pcap"; category := t "21"; timestamp := false; config := cfg48 |}).
  reflexivity.
Defined.

(** For contrast, a category configured with an empty list returns the
    "Table not found" message and writes nothing. *)
Lemma empty_table_returns_error (job : Job) (tshark : list text -> Proc)
  (elapsed : text) (fs : FS) :
  categories (config job) !! category job = Some [] ->
  generate_data_from_pcap job tshark elapsed fs =
  (inr (t "[ERROR] Table not found for CAT " ++ category job), fs).
Proof.
  intros H. unfold generate_data_from_pcap, resolve_fields. by rewrite H.
Qed.

(** C4.  When the decoder exits with a nonzero status, the task returns
    (raises nothing) ["[ERROR] <base name>: <stderr stripped>"], the
    standard error being the text [subprocess.run] gives in text mode, and
    the file system is unchanged. *)
Theorem C4_decoder_failure_error (job : Job) (tshark : list text -> Proc)
  (elapsed : text) (fs : FS) (ft : list (text * text)) :
  resolve_fields (config job) (category job) = inr (inr ft) ->
  let p := tshark (tshark_cmd (config job) (filename job) (category job) (timestamp job) ft) in
  returncode p <> 0 ->
  generate_data_from_pcap job tshark elapsed fs =
  (inr (t "[ERROR] " ++ path_name (filename job) ++ t ": " ++
        strip (translate_newlines (proc_stderr p))), fs).
Proof.
  intros Hr p Hc. unfold generate_data_from_pcap. rewrite Hr. fold p.
  apply Z.eqb_neq in Hc. by rewrite Hc.
Qed.

Lemma C4_decoder_failure_error_witness :
  resolve_fields cfg48 (t "48") =
    inr (inr [(t "SAC", t "010.SAC"); (t "SIC", t "010.SIC")]) /\
  generate_data_from_pcap (job48 false) (decoder 2 [] (t " bad file " ++ nl)) (t "0.00") ∅ =
  (inr (t "[ERROR] a.pcap: bad file"), ∅).
Proof.
  split; [reflexivity|].
  rewrite (C4_decoder_failure_error (job48 false) _ _ _
             [(t "SAC", t "010.SAC"); (t "SIC", t "010.SIC")]);
    [vm_compute; reflexivity|reflexivity|vm_compute; discriminate].
Defined.

(** C5.  When the decoder exits with status 0 and its standard output is
    empty or made of whitespace only, the task returns
    ["[WARN] <base name>: empty output"] and the file system is unchanged. *)
Theorem C5_blank_output_warning (job : Job) (tshark : list text -> Proc)
  (elapsed : text) (fs : FS) (ft : list (text * text)) :
  resolve_fields (config job) (category job) = inr (inr ft) ->
  let p := tshark (tshark_cmd (config job) (filename job) (category job) (timestamp job) ft) in
  returncode p = 0 ->
  Forall (fun c => py_isspace c = true) (proc_stdout p) ->
  generate_data_from_pcap job tshark elapsed fs =
  (inr (t "[WARN] " ++ path_name (filename job) ++ t ": empty output"), fs).
Proof.
  intros Hr p Hc Hs. unfold generate_data_from_pcap. rewrite Hr. fold p.
  rewrite Hc. simpl. unfold strip.
  rewrite (lstrip_all_space _ (translate_newlines_space _ Hs)). reflexivity.
Qed.

Lemma C5_blank_output_warning_witness :
  generate_data_from_pcap (job48 true) (decoder 0 ([32; 13; 10; 9] ++ nl) []) (t "0.00") ∅ =
  (inr (t "[WARN] a.pcap: empty output"), ∅).
Proof.
  rewrite (C5_blank_output_warning (job48 true) _ _ _
             [(t "SAC", t "010.SAC"); (t "SIC", t "010.SIC")]);
    [vm_compute; reflexivity|reflexivity|reflexivity|].
  vm_compute. repeat constructor.
Defined.

(** C8.  Once the fields are resolved to [ft], the decoder is consulted only
    on the command line
    [path -r file params... -Y asterix.category==<cat>], then
    [-e frame.time_epoch] when the timestamp flag is set, then one
    [-e <expr>] per resolved field expression, in resolved order: any two
    decoders that agree on that command line give the same run. *)
Theorem C8_decoder_command (job : Job) (tshark tshark' : list text -> Proc)
  (elapsed : text) (fs : FS) (ft : list (text * text)) :
  resolve_fields (config job) (category job) = inr (inr ft) ->
  let cmd := [tshark_path (config job); t "-r"; filename job] ++
             tshark_parameters (config job) ++
             [t "-Y"; t "asterix.category==" ++ category job] ++
             (if timestamp job then [t "-e"; t "frame.time_epoch"] else []) ++
             concat (map (fun v => [t "-e"; v]) (map snd ft)) in
  tshark' cmd = tshark cmd ->
  generate_data_from_pcap job tshark' elapsed fs =
  generate_data_from_pcap job tshark elapsed fs.
Proof.
  intros Hr cmd Heq. unfold generate_data_from_pcap. rewrite Hr.
  assert (Hc : tshark_cmd (config job) (filename job) (category job) (timestamp job) ft = cmd).
  { unfold tshark_cmd, cmd. by rewrite map_map. }
  by rewrite Hc, Heq.
Qed.

Lemma C8_decoder_command_witness :
  generate_data_from_pcap (job48 true)
    (fun cmd => if bool_decide (cmd = [t "tshark"; t "-r"; t "caps/a.pcap"; t "-T"; t "fields";
                   t "-E"; t "separator=;"; t "-Y"; t "asterix.category==48";
                   t "-e"; t "frame.time_epoch"; t "-e"; t "010.SAC"; t "-e"; t "010.SIC"])
                then {| returncode := 0; proc_stdout := t "100.5;1;2" ++ nl; proc_stderr := [] |}
                else {| returncode := 1; proc_stdout := []; proc_stderr := [] |})
    (t "0.01") ∅ =
  generate_data_from_pcap (job48 true) (decoder 0 (t "100.5;1;2" ++ nl) []) (t "0.01") ∅.
Proof.
  apply (C8_decoder_command (job48 true) _ _ _ _
           [(t "SAC", t "010.SAC"); (t "SIC", t "010.SIC")]); vm_compute; reflexivity.
Defined.

(** C9.  Running the task a second time, on the file system the first run
    left, with the same job and the same decoder: the file system is the
    same after both runs (the output file has the same bytes), and the two
    results are equal or differ only in the rendered elapsed time. *)
Theorem C9_rerun_same_file (job : Job) (tshark : list text -> Proc)
  (elapsed1 elapsed2 : text) (fs : FS) :
  let '(r1, fs1) := generate_data_from_pcap job tshark elapsed1 fs in
  let '(r2, fs2) := generate_data_from_pcap job tshark elapsed2 fs1 in
  fs2 = fs1 /\
  (r2 = r1 \/ exists pre, r1 = inr (pre ++ elapsed1 ++ t "s)") /\
                          r2 = inr (pre ++ elapsed2 ++ t "s)")).
Proof.
  unfold generate_data_from_pcap.
  destruct (resolve_fields (config job) (category job)) as [e|[msg|ft]];
    [split; [done|left; done]|split; [done|left; done]|].
  set (p := tshark (tshark_cmd (config job) (filename job) (category job) (timestamp job) ft)).
  destruct (negb (returncode p =? 0)); [split; [done|left; done]|].
  destruct (strip (translate_newlines (proc_stdout p))) as [|c raw];
    [split; [done|left; done]|].
  set (o := path_stem (filename job) ++ t ".csv").
  set (content := encode_rows _).
  split; [apply insert_insert_eq|].
  right. exists (t "[OK] " ++ path_name (filename job) ++ arrow ++ o ++ t " (").
  split; by rewrite <- !app_assoc.
Qed.

(** C10.  When the decoder succeeds with non-blank output, the file holds
    the header and then, for each line of the stripped output, the
    [split(";")] of that line as it is: no row is padded or truncated to the
    number of header columns. *)
Theorem C10_rows_verbatim (job : Job) (tshark : list text -> Proc)
  (elapsed : text) (fs : FS) (ft : list (text * text)) :
  resolve_fields (config job) (category job) = inr (inr ft) ->
  let p := tshark (tshark_cmd (config job) (filename job) (category job) (timestamp job) ft) in
  let raw_data := strip (translate_newlines (proc_stdout p)) in
  returncode p = 0 ->
  raw_data <> [] ->
  snd (generate_data_from_pcap job tshark elapsed fs) =
  <[path_stem (filename job) ++ t ".csv" :=
      encode_rows (header_row (timestamp job) (map fst ft) ::
                   map (split semicolon) (splitlines raw_data))]> fs.
Proof.
  intros Hr p raw_data Hc Hne. by rewrite (generate_success job tshark elapsed fs ft Hr Hc Hne).
Qed.

(** A one-cell row under a two-column header is written with one cell. *)
Lemma C10_rows_verbatim_witness :
  snd (generate_data_from_pcap (job48 false) (decoder 0 (t "1;2;3" ++ nl ++ t "4" ++ nl) []) (t "0.00") ∅) =
  <[t "a.csv" := encode_rows [[t "SAC"; t "SIC"]; [t "1"; t "2"; t "3"]; [t "4"]]]> ∅.
Proof.
  rewrite (C10_rows_verbatim (job48 false) _ _ _
             [(t "SAC", t "010.SAC"); (t "SIC", t "010.SIC")]);
    [vm_compute; reflexivity|reflexivity|reflexivity|vm_compute; discriminate].
Defined.

(** C2 (counterexample).  The decoder prints two non-empty lines, [" "]
    and ["1;2"]; [stdout.strip()] removes the first one, so the file holds
    one data row, not two. *)
Lemma C2_blank_first_line :
  splitlines (t " " ++ nl ++ t "1;2" ++ nl) = [t " "; t "1;2"] /\
  snd (generate_data_from_pcap (job48 false) (decoder 0 (t " " ++ nl ++ t "1;2" ++ nl) [])
         (t "0.00") ∅) !! t "a.csv" =
    Some (encode_rows [[t "SAC"; t "SIC"]; [t "1"; t "2"]]) /\
  encode_rows [[t "SAC"; t "SIC"]; [t "1"; t "2"]] <>
    encode_rows [[t "SAC"; t "SIC"]; [t " "]; [t "1"; t "2"]].
Proof.
  split; [reflexivity|]. split; [vm_compute; reflexivity|].
  vm_compute. discriminate.
Qed.

(** C2 (amended).  For decoder output made of [lines], each terminated by a
    newline, non-empty and free of line-boundary characters, the first not
    starting and the last not ending with whitespace, the file holds the
    header and then exactly one row per line, the [split(";")] of that
    line, in order, whatever the number of lines relative to the buffer
    size of 10000. *)
Theorem C2_rows_in_order (job : Job) (tshark : list text -> Proc)
  (elapsed : text) (fs : FS) (ft : list (text * text)) (lines : list text) :
  resolve_fields (config job) (category job) = inr (inr ft) ->
  let p := tshark (tshark_cmd (config job) (filename job) (category job) (timestamp job) ft) in
  returncode p = 0 ->
  proc_stdout p = unlines lines ->
  lines <> [] ->
  Forall (fun l => l <> [] /\ Forall (fun c => py_linebreak c = false) l) lines ->
  (forall c, hd_error (concat lines) = Some c -> py_isspace c = false) ->
  (forall c, last (concat lines) = Some c -> py_isspace c = false) ->
  snd (generate_data_from_pcap job tshark elapsed fs) =
  <[path_stem (filename job) ++ t ".csv" :=
      encode_rows (header_row (timestamp job) (map fst ft) ::
                   map (split semicolon) lines)]> fs.
Proof.
  intros Hr p Hc Hout Hne Hl Hfirst Hlast.
  assert (Hl' : Forall (fun l : text => l <> []) lines).
  { eapply Forall_impl; [exact Hl|]. intros l [? _]. done. }
  assert (Hraw : strip (translate_newlines (proc_stdout p)) = join [10] lines).
  { rewrite Hout, translate_newlines_id by (by apply unlines_no_cr).
    by apply strip_unlines. }
  assert (Hj : join [10] lines <> []).
  { intros E. pose proof (join_hd lines Hl') as Hh. rewrite E in Hh.
    destruct lines as [|l ls]; [done|]. inversion Hl'; subst.
    destruct l; [done|]. done. }
  assert (Hne' : strip (translate_newlines (proc_stdout p)) <> []) by (by rewrite Hraw).
  rewrite (generate_success job tshark elapsed fs ft Hr Hc Hne'). simpl.
  fold p. by rewrite Hraw, splitlines_join.
Qed.

Lemma C2_rows_in_order_witness :
  snd (generate_data_from_pcap (job48 false) (decoder 0 (unlines [t "1;2"; t "3;4"]) [])
         (t "0.00") ∅) =
  <[t "a.csv" := encode_rows [[t "SAC"; t "SIC"]; [t "1"; t "2"]; [t "3"; t "4"]]]> ∅.
Proof.
  rewrite (C2_rows_in_order (job48 false) _ _ _
             [(t "SAC", t "010.SAC"); (t "SIC", t "010.SIC")] [t "1;2"; t "3;4"]).
  - vm_compute. reflexivity.
  - reflexivity.
  - reflexivity.
  - reflexivity.
  - discriminate.
  - vm_compute. repeat constructor; discriminate.
  - intros c Hc. vm_compute in Hc. injection Hc as <-. reflexivity.
  - intros c Hc. vm_compute in Hc. injection Hc as <-. reflexivity.
Defined.


(** C3 (counterexample).  With the key SAC configured twice, the fields
    table is a dict and keeps SAC once: the header is [SAC], not
    [SAC;SAC]. *)
Lemma C3_duplicate_key_header :
  option_map (map Key) (categories cfg_dup !! t "48") = Some [t "SAC"; t "SAC"] /\
  snd (generate_data_from_pcap
         {| filename := t "a.pcap"; category := t "48"; timestamp := false; config := cfg_dup |}
         (decoder 0 (t "1" ++ nl) []) (t "0.00") ∅) !! t "a.csv" =
    Some (encode_row [t "SAC"] ++ encode_row [t "1"]) /\
  (forall rest, encode_row [t "SAC"] ++ encode_row [t "1"] <> encode_row [t "SAC"; t "SAC"] ++ rest).
Proof.
  split; [reflexivity|]. split; [vm_compute; reflexivity|].
  intros rest H. apply (f_equal (firstn 4)) in H. vm_compute in H. discriminate.
Qed.

(** C3 (amended).  For a category configured with [items], whenever the
    task writes its output file, the header row is [TIMESTAMP] (only when
    the timestamp flag is set) followed by the configured keys in configured
    order, each repeated key kept at its first occurrence only; with
    distinct keys, that is exactly the configured keys. *)
Theorem C3_header_first_occurrences (job : Job) (tshark : list text -> Proc)
  (elapsed : text) (fs : FS) (items : list Item) :
  categories (config job) !! category job = Some items ->
  let ks := dedup_keys (map Key items) [] in
  (snd (generate_data_from_pcap job tshark elapsed fs) = fs \/
   exists rows,
     snd (generate_data_from_pcap job tshark elapsed fs) =
     <[path_stem (filename job) ++ t ".csv" :=
         encode_rows ((if timestamp job then t "TIMESTAMP" :: ks else ks) :: rows)]> fs) /\
  (NoDup (map Key items) -> ks = map Key items).
Proof.
  intros H ks. split.
  - unfold generate_data_from_pcap, resolve_fields. rewrite H.
    destruct (fields_table_of items) as [|kv ft] eqn:E; [left; done|].
    set (p := tshark _).
    destruct (negb (returncode p =? 0)); [left; done|].
    destruct (strip (translate_newlines (proc_stdout p))) as [|c raw] eqn:Er; [left; done|].
    right. eexists. rewrite csv_rows_spec. unfold header_row.
    rewrite <- E, fields_table_keys. reflexivity.
  - intros Hnd. apply dedup_keys_nodup; [done|]. intros x _ Hx. inversion Hx.
Qed.

Lemma C3_header_first_occurrences_witness :
  snd (generate_data_from_pcap (job48 true) (decoder 0 (t "100.5;1;2" ++ nl) []) (t "0.00") ∅) <> ∅ /\
  exists rows,
    snd (generate_data_from_pcap (job48 true) (decoder 0 (t "100.5;1;2" ++ nl) []) (t "0.00") ∅) =
    <[t "a.csv" := encode_rows ([t "TIMESTAMP"; t "SAC"; t "SIC"] :: rows)]> ∅.
Proof.
  destruct (C3_header_first_occurrences (job48 true) (decoder 0 (t "100.5;1;2" ++ nl) [])
              (t "0.00") ∅ [item (t "SAC") (t "010.SAC"); item (t "SIC") (t "010.SIC")]
              eq_refl) as [[H|[rows H]] _].
  - vm_compute in H. discriminate.
  - split; [vm_compute; discriminate|]. exists rows. rewrite H. reflexivity.
Defined.

(** C6 (counterexample).  On a machine with one processing unit the default
    worker count is [1 // 2 = 0]. *)
Lemma C6_single_cpu_default_zero : default_jobs (Some 1) = inr 0.
Proof. reflexivity. Qed.

(** C6 (amended).  The default worker count is [os.cpu_count() // 2] with
    no minimum: it is at least 1 exactly when at least 2 processing units
    are reported, and an unknown count ([None]) raises [TypeError]. *)
Theorem C6_default_half (c : Z) :
  default_jobs (Some c) = inr (c / 2) /\ (1 <= c / 2 <-> 2 <= c) /\
  default_jobs None = inl TypeError.
Proof.
  split; [reflexivity|]. split; [|reflexivity].
  split; intros H.
  - pose proof (Z.mul_div_le c 2). lia.
  - apply Z.div_le_lower_bound; lia.
Qed.


(** C7 (counterexample).  A directory whose only entry is [.trace.pcap]:
    [glob("caps/*")] skips names starting with a dot, so the run prints the
    "no PCAP" warning and submits nothing although the listing is not
    empty. *)
Lemma C7_hidden_entry_skipped :
  pcap_asterix (Some 8) cfg48 (args_dir (t "caps")) [t ".trace.pcap"] (pool_in [])
    (decoder 0 [] []) (t "0.00") ∅ =
  ([Print (warn_sign ++ t " Nenhum PCAP em caps")], None, ∅).
Proof. vm_compute. reflexivity. Qed.

(** C7 (amended).  In directory mode ([-f] not given or empty, [-d] given,
    non-empty and free of glob magic characters), with [visible] the
    listed names that do not start with a dot: if there is none, the run
    prints a single warning, submits nothing, raises nothing and writes
    nothing; otherwise, with a positive pool size, it prints a header line
    and submits one job per visible entry, in listing order, for the path
    [glob] builds from the directory and that entry, with no filtering on
    the extension, and afterwards only prints. *)
Theorem C7_directory_mode (cpu_count : option Z) (dflt : Z) (cfg : Config) (a : Args)
  (listing : list text) (pool : Pool) (tshark : list text -> Proc) (elapsed : text)
  (fs : FS) (d : text) :
  default_jobs cpu_count = inr dflt ->
  truthy (arg_file a) = false ->
  arg_directory a = Some d ->
  d <> [] ->
  has_magic d = false ->
  let visible := filter (fun n => negb (is_hidden n)) listing in
  (visible = [] ->
   pcap_asterix cpu_count cfg a listing pool tshark elapsed fs =
   ([Print (warn_sign ++ t " Nenhum PCAP em " ++ d)], None, fs)) /\
  (visible <> [] -> 0 < default dflt (arg_jobs a) ->
   exists header rest e fs',
     pcap_asterix cpu_count cfg a listing pool tshark elapsed fs =
     (Print header ::
        map (fun n => Submit {| filename := path_join (glob_dirname d) n;
                                category := arg_category a;
                                timestamp := arg_timestamp a; config := cfg |}) visible
        ++ rest, e, fs') /\
     Forall (fun ev => exists m, ev = Print m) rest).
Proof.
  intros Hj Hf Hd Hne _ visible.
  rewrite (pcap_asterix_directory cpu_count dflt cfg a listing pool tshark elapsed fs d)
    by done.
  unfold directory_mode, glob_star. fold visible.
  split.
  - intros ->. reflexivity.
  - intros Hv Hpos.
    destruct (map (path_join (glob_dirname d)) visible) as [|f fs0] eqn:Em.
    { apply map_eq_nil in Em. done. }
    rewrite (proj2 (Z.leb_gt _ _) Hpos).
    destruct (run_jobs _ _ _ _ fs) as [rs fs'].
    destruct (print_results rs) as [evs e] eqn:Ep.
    eexists _, _, e, fs'. split.
    + rewrite <- Em, !map_map. reflexivity.
    + apply Forall_app. split.
      * pose proof (print_results_prints rs) as H. rewrite Ep in H. exact H.
      * destruct e; [constructor|]. constructor; [by eexists|constructor].
Qed.

Lemma C7_directory_mode_witness :
  exists header rest e fs',
    pcap_asterix (Some 8) cfg48 (args_dir (t "caps/")) [t "b.pcap"; t ".x"; t "notes.txt"]
      (pool_in [1; 0]%nat) (decoder 0 [] []) (t "0.00") ∅ =
    (Print header ::
       [Submit {| filename := t "caps/b.pcap"; category := t "48"; timestamp := false;
                  config := cfg48 |};
        Submit {| filename := t "caps/notes.txt"; category := t "48"; timestamp := false;
                  config := cfg48 |}] ++ rest, e, fs') /\
    Forall (fun ev => exists m, ev = Print m) rest.
Proof.
  destruct (C7_directory_mode (Some 8) 4 cfg48 (args_dir (t "caps/"))
              [t "b.pcap"; t ".x"; t "notes.txt"] (pool_in [1; 0]%nat) (decoder 0 [] [])
              (t "0.00") ∅ (t "caps/")
              eq_refl eq_refl eq_refl ltac:(discriminate) eq_refl) as [_ H].
  destruct H as (header & rest & e & fs' & H1 & H2); [discriminate|vm_compute; reflexivity|].
  exists header, rest, e, fs'. split; [rewrite H1; reflexivity|exact H2].
Defined.

(** ** Further properties of the task and of the dispatcher *)

Lemma empty_table_returns_error_witness :
  generate_data_from_pcap
    {| filename := t "a.pcap"; category := t "62"; timestamp := true;
       config := {| categories := <[t "62" := []]> ∅; tshark_path := t "tshark";
                    tshark_parameters := [] |} |}
    (decoder 0 (t "1" ++ nl) []) (t "0.00") ∅ =
  (inr (t "[ERROR] Table not found for CAT 62"), ∅).
Proof. apply empty_table_returns_error. reflexivity. Defined.

(** The task changes the file system at most at [<stem>.csv]: every other
    file is left as it was. *)
Theorem task_frame (job : Job) (tshark : list text -> Proc) (elapsed : text)
  (fs : FS) (o : text) :
  o <> path_stem (filename job) ++ t ".csv" ->
  snd (generate_data_from_pcap job tshark elapsed fs) !! o = fs !! o.
Proof.
  intros Ho. unfold generate_data_from_pcap.
  destruct (resolve_fields (config job) (category job)) as [e|[msg|ft]]; [done|done|].
  set (p := tshark _).
  destruct (negb (returncode p =? 0)); [done|].
  destruct (strip (translate_newlines (proc_stdout p))); [done|].
  simpl. by rewrite lookup_insert_ne by congruence.
Qed.

Lemma task_frame_witness :
  snd (generate_data_from_pcap (job48 false) (decoder 0 (t "1;2" ++ nl) []) (t "0.00")
         (<[t "b.csv" := t "old"]> ∅)) !! t "b.csv" = Some (t "old").
Proof.
  rewrite task_frame by (vm_compute; discriminate). reflexivity.
Defined.

(** A file is written exactly on the success path: either the file system
    is unchanged and the task raised or returned a message that does not
    start with ["[OK] "], or it returned an ["[OK] "] message and stored one
    content at [<stem>.csv]. *)
Theorem task_writes_only_on_success (job : Job) (tshark : list text -> Proc)
  (elapsed : text) (fs : FS) :
  (snd (generate_data_from_pcap job tshark elapsed fs) = fs /\
   forall msg rest, fst (generate_data_from_pcap job tshark elapsed fs) = inr msg ->
                    msg <> t "[OK] " ++ rest) \/
  (exists content rest,
     snd (generate_data_from_pcap job tshark elapsed fs) =
       <[path_stem (filename job) ++ t ".csv" := content]> fs /\
     fst (generate_data_from_pcap job tshark elapsed fs) = inr (t "[OK] " ++ rest)).
Proof.
  unfold generate_data_from_pcap.
  destruct (resolve_fields (config job) (category job)) as [e|[msg|ft]] eqn:Er.
  - left. split; [done|]. intros msg rest H. discriminate.
  - left. split; [done|]. intros m rest H. injection H as <-.
    unfold resolve_fields in Er. destruct (categories (config job) !! category job); [|done].
    destruct (fields_table_of l); [|done]. injection Er as <-. discriminate.
  - set (p := tshark _).
    destruct (negb (returncode p =? 0)).
    { left. split; [done|]. intros m rest H. injection H as <-. discriminate. }
    destruct (strip (translate_newlines (proc_stdout p))).
    { left. split; [done|]. intros m rest H. injection H as <-. discriminate. }
    right. do 2 eexists. split; reflexivity.
Qed.

(** Neither [-f] nor [-d] given (or both empty strings): the usage line is
    printed and nothing else happens. *)
Theorem pcap_asterix_no_input (cpu_count : option Z) (dflt : Z) (cfg : Config) (a : Args)
  (listing : list text) (pool : Pool) (tshark : list text -> Proc) (elapsed : text)
  (fs : FS) :
  default_jobs cpu_count = inr dflt ->
  truthy (arg_file a) = false ->
  truthy (arg_directory a) = false ->
  pcap_asterix cpu_count cfg a listing pool tshark elapsed fs =
  ([Print ([10060; 32] ++ t "Use -f ou -d")], None, fs).
Proof. intros Hj Hf Hd. unfold pcap_asterix. by rewrite Hj, Hf, Hd. Qed.

Lemma pcap_asterix_no_input_witness :
  pcap_asterix (Some 4) cfg48
    {| arg_file := Some []; arg_directory := None; arg_category := t "48";
       arg_timestamp := false; arg_jobs := Some 2 |}
    [t "a.pcap"] (pool_in [0]%nat) (decoder 0 [] []) (t "0.00") ∅ =
  ([Print ([10060; 32] ++ t "Use -f ou -d")], None, ∅).
Proof. apply (pcap_asterix_no_input _ 2); reflexivity. Defined.

(** [os.cpu_count() // 2] is evaluated when the [-j] option is declared:
    when the processing-unit count is unknown the program raises
    [TypeError] before anything else, even when [-j] is given. *)
Theorem pcap_asterix_unknown_cpu_count (cfg : Config) (a : Args) (listing : list text)
  (pool : Pool) (tshark : list text -> Proc) (elapsed : text) (fs : FS) :
  pcap_asterix None cfg a listing pool tshark elapsed fs = ([], Some TypeError, fs).
Proof. reflexivity. Qed.

(** When [-f] is given (non-empty), single-file mode runs whatever [-d],
    the directory and the pool hold. *)
Theorem pcap_asterix_file_wins (cpu_count : option Z) (cfg : Config) (a : Args)
  (d : option text) (listing listing' : list text) (pool pool' : Pool)
  (tshark : list text -> Proc) (elapsed : text) (fs : FS) :
  truthy (arg_file a) = true ->
  pcap_asterix cpu_count cfg a listing pool tshark elapsed fs =
  pcap_asterix cpu_count cfg
    {| arg_file := arg_file a; arg_directory := d; arg_category := arg_category a;
       arg_timestamp := arg_timestamp a; arg_jobs := arg_jobs a |}
    listing' pool' tshark elapsed fs.
Proof.
  intros Hf. unfold pcap_asterix. simpl. rewrite Hf. reflexivity.
Qed.

Lemma pcap_asterix_file_wins_witness :
  pcap_asterix (Some 4) cfg48
    {| arg_file := Some (t "caps/a.pcap"); arg_directory := Some (t "caps");
       arg_category := t "48"; arg_timestamp := false; arg_jobs := None |}
    [t "a.pcap"; t "b.pcap"] (pool_in [0; 1]%nat) (decoder 0 (t "1;2" ++ nl) []) (t "0.00") ∅ =
  pcap_asterix (Some 4) cfg48
    {| arg_file := Some (t "caps/a.pcap"); arg_directory := None;
       arg_category := t "48"; arg_timestamp := false; arg_jobs := None |}
    [] (pool_in []) (decoder 0 (t "1;2" ++ nl) []) (t "0.00") ∅.
Proof.
  apply (pcap_asterix_file_wins (Some 4) cfg48
           {| arg_file := Some (t "caps/a.pcap"); arg_directory := Some (t "caps");
              arg_category := t "48"; arg_timestamp := false; arg_jobs := None |}).
  reflexivity.
Defined.

(** Single-file mode with a category absent from the configuration: the
    [TypeError] of the task leaves the program, nothing is printed and no
    file is written. *)
Theorem pcap_asterix_file_absent_category (cpu_count : option Z) (dflt : Z) (cfg : Config)
  (a : Args) (listing : list text) (pool : Pool) (tshark : list text -> Proc)
  (elapsed : text) (fs : FS) :
  default_jobs cpu_count = inr dflt ->
  truthy (arg_file a) = true ->
  categories cfg !! arg_category a = None ->
  pcap_asterix cpu_count cfg a listing pool tshark elapsed fs = ([], Some TypeError, fs).
Proof.
  intros Hj Hf Hc. unfold pcap_asterix. rewrite Hj, Hf. simpl.
  unfold generate_data_from_pcap, resolve_fields. simpl. by rewrite Hc.
Qed.

Lemma pcap_asterix_file_absent_category_witness :
  pcap_asterix (Some 4) cfg48
    {| arg_file := Some (t "a.pcap"); arg_directory := None; arg_category := t "34";
       arg_timestamp := false; arg_jobs := None |}
    [] (pool_in []) (decoder 0 [] []) (t "0.00") ∅ = ([], Some TypeError, ∅).
Proof. apply (pcap_asterix_file_absent_category _ 2); reflexivity. Defined.

(** Directory mode (with a directory name free of glob magic characters)
    with at least one visible entry and a pool size that is not positive
    (for instance the default on one processing unit): the header line is
    printed, then [ProcessPoolExecutor] raises [ValueError], no job is
    submitted and no file is written. *)
Theorem pcap_asterix_nonpositive_pool (cpu_count : option Z) (dflt : Z) (cfg : Config)
  (a : Args) (listing : list text) (pool : Pool) (tshark : list text -> Proc)
  (elapsed : text) (fs : FS) (d : text) :
  default_jobs cpu_count = inr dflt ->
  truthy (arg_file a) = false ->
  arg_directory a = Some d ->
  d <> [] ->
  has_magic d = false ->
  filter (fun n => negb (is_hidden n)) listing <> [] ->
  default dflt (arg_jobs a) <= 0 ->
  exists header,
    pcap_asterix cpu_count cfg a listing pool tshark elapsed fs =
    ([Print header], Some ValueError, fs).
Proof.
  intros Hj Hf Hd Hne _ Hv Hpos. unfold pcap_asterix. rewrite Hj, Hf, Hd.
  destruct d as [|c d']; [done|]. simpl. unfold directory_mode, glob_star.
  destruct (map (path_join (glob_dirname (c :: d'))) _) eqn:Em.
  { apply map_eq_nil in Em. done. }
  rewrite (proj2 (Z.leb_le _ _) Hpos). eexists. reflexivity.
Qed.

Lemma pcap_asterix_nonpositive_pool_witness :
  exists header,
    pcap_asterix (Some 1) cfg48 (args_dir (t "caps")) [t "a.pcap"] (pool_in [0]%nat)
      (decoder 0 [] []) (t "0.00") ∅ = ([Print header], Some ValueError, ∅).
Proof.
  apply (pcap_asterix_nonpositive_pool (Some 1) 0 cfg48 _ _ _ _ _ _ (t "caps"));
    try reflexivity; try discriminate; vm_compute; try discriminate; lia.
Defined.

(** ** The buffer bound, the cells, the output file name *)

(** Between two lines of the loop the buffer holds fewer than [buffer_size]
    rows: memory for rows stays bounded. *)
Theorem write_lines_buffer_bound (lines : list text) (buffer written : list (list text)) :
  Z.of_nat (length buffer) < buffer_size ->
  Z.of_nat (length (fst (write_lines lines buffer written))) < buffer_size.
Proof.
  revert buffer written. induction lines as [|l ls IH]; intros buffer written H; [done|].
  simpl. destruct (buffer_size <=? Z.of_nat (length (buffer ++ [split semicolon l]))) eqn:E.
  - apply IH. simpl. unfold buffer_size. lia.
  - apply IH. apply Z.leb_gt in E. exact E.
Qed.

Lemma write_lines_buffer_bound_witness :
  Z.of_nat (length (fst (write_lines [t "1;2"; t "3;4"] [] [[t "SAC"; t "SIC"]]))) < buffer_size.
Proof. apply write_lines_buffer_bound. vm_compute. reflexivity. Defined.

Lemma split_go_in (sep : Z) (s cur x : text) (c : Z) :
  (forall d, In d cur -> d <> sep) ->
  In x (split_go sep s cur) -> In c x -> c <> sep /\ (In c s \/ In c cur).
Proof.
  revert cur. induction s as [|d r IH]; intros cur Hcur Hx Hc; simpl in Hx.
  - destruct Hx as [<-|[]]. apply in_rev in Hc. split; [by apply Hcur|by right].
  - destruct (Z.eqb_spec d sep) as [->|Hne].
    + destruct Hx as [<-|Hx].
      * apply in_rev in Hc. split; [by apply Hcur|by right].
      * destruct (IH [] ltac:(done) Hx Hc) as [? [?|[]]]. split; [done|]. left; right; done.
    + destruct (IH (d :: cur)) as [? [?|[<-|?]]]; try done.
      * intros e [<-|He]; [done|by apply Hcur].
      * split; [done|]. left; right; done.
      * split; [done|]. left; left; done.
      * split; [done|]. by right.
Qed.





(** The output file name has no [/]: the file is always created in the
    current working directory, whatever the input path. *)
Theorem outfile_in_cwd (fname : text) :
  ~ In 47 (path_stem fname ++ t ".csv").
Proof.
  assert (Hn : ~ In 47 (path_name fname)).
  { unfold path_name, path_parts. intros H.
    destruct (last _) as [x|] eqn:E; [|done]. simpl in H.
    apply last_Some_elem_of in E. apply list_elem_of_filter in E as [_ E].
    apply list_elem_of_In in E.
    by destruct (split_go_in 47 fname [] x 47 ltac:(done) E H). }
  unfold path_stem. intros H. apply in_app_or in H as [H|H]; [|vm_compute in H; lia].
  destruct (_ && _); [|done]. apply Hn.
  rewrite <- (firstn_skipn (Z.to_nat (rfind 46 (path_name fname))) (path_name fname)).
  apply in_or_app. by left.
Qed.

Lemma split_go_app_sep (sep : Z) (x y cur : text) :
  split_go sep (x ++ sep :: y) cur = split_go sep x cur ++ split_go sep y [].
Proof.
  revert cur. induction x as [|c r IH]; intros cur; simpl.
  - by rewrite Z.eqb_refl.
  - destruct (c =? sep); [by rewrite IH|by rewrite IH].
Qed.

Lemma split_go_no_sep (sep : Z) (s cur : text) :
  ~ In sep s -> split_go sep s cur = [rev cur ++ s].
Proof.
  revert cur. induction s as [|c r IH]; intros cur H; simpl.
  - by rewrite app_nil_r.
  - destruct (Z.eqb_spec c sep) as [->|Hne]; [exfalso; apply H; by left|].
    rewrite IH by (intros Hr; apply H; by right). simpl. by rewrite <- app_assoc.
Qed.

Lemma rfind_go_app (c : Z) (x y : text) (i found : Z) :
  rfind_go c (x ++ y) i found = rfind_go c y (i + Z.of_nat (length x)) (rfind_go c x i found).
Proof.
  revert i found. induction x as [|d r IH]; intros i found; simpl.
  - by rewrite Z.add_0_r.
  - rewrite IH. f_equal. lia.
Qed.

Lemma rfind_go_absent (c : Z) (s : text) (i found : Z) :
  ~ In c s -> rfind_go c s i found = found.
Proof.
  revert i found. induction s as [|d r IH]; intros i found H; simpl; [done|].
  destruct (Z.eqb_spec d c) as [->|Hne]; [exfalso; apply H; by left|].
  apply IH. intros Hr. apply H. by right.
Qed.

(** For an input path [dir/s.e] (or [s.e] alone) whose extension [e] has no
    dot and whose stem [s] is not empty, the output file is [s.csv]: the
    last extension of the base name is replaced by [.csv]. *)
Theorem outfile_replaces_extension (dir s e : text) :
  (dir = [] \/ exists d', dir = d' ++ [47]) ->
  s <> [] -> e <> [] -> ~ In 47 s -> ~ In 47 e -> ~ In 46 e ->
  path_stem (dir ++ s ++ [46] ++ e) ++ t ".csv" = s ++ t ".csv".
Proof.
  intros Hdir Hs He Hs47 He47 He46.
  set (n := s ++ [46] ++ e).
  assert (Hn47 : ~ In 47 n).
  { unfold n. intros H. apply in_app_or in H as [H|[H|H]]; [done|lia|done]. }
  assert (Hnn : n <> []) by (unfold n; destruct s; done).
  assert (Hnd : n <> t ".").
  { unfold n. intros E. apply (f_equal (@length Z)) in E. rewrite !length_app in E.
    destruct s; [done|]. destruct e; [done|]. simpl in E. lia. }
  assert (Hone : filter (fun c : text => negb (bool_decide (c = [])) && negb (bool_decide (c = t ".")))
                   [n] = [n]).
  { rewrite filter_cons_True; [done|]. by rewrite !bool_decide_false. }
  assert (Hparts : path_parts (dir ++ n) = path_parts dir ++ [n]).
  { unfold path_parts, split. destruct Hdir as [->|[d' ->]].
    - simpl. rewrite split_go_no_sep by done. exact Hone.
    - rewrite <- app_assoc. simpl. rewrite !split_go_app_sep, (split_go_no_sep 47 n []) by done.
      simpl. rewrite !filter_app, Hone, (filter_cons_False _ []), filter_nil, app_nil_r;
        [done|].
      rewrite bool_decide_true by done. simpl. tauto. }
  unfold path_stem, path_name. rewrite Hparts, last_snoc. simpl.
  assert (Hr : rfind 46 n = Z.of_nat (length s)).
  { unfold rfind, n. rewrite rfind_go_app. simpl.
    rewrite rfind_go_absent by done. lia. }
  rewrite Hr.
  assert (Hlen : Z.of_nat (length n) = Z.of_nat (length s) + 1 + Z.of_nat (length e)).
  { unfold n. rewrite !length_app. simpl. lia. }
  rewrite Hlen.
  destruct s as [|c s']; [done|]. destruct e as [|c' e']; [done|].
  replace ((0 <? Z.of_nat (length (c :: s'))) &&
           (Z.of_nat (length (c :: s')) <?
            Z.of_nat (length (c :: s')) + 1 + Z.of_nat (length (c' :: e')) - 1)) with true
    by (symmetry; apply andb_true_intro; split; [apply Z.ltb_lt|apply Z.ltb_lt]; simpl; lia).
  rewrite Nat2Z.id. unfold n. by rewrite firstn_app, Nat.sub_diag, firstn_all, app_nil_r.
Qed.

Lemma outfile_replaces_extension_witness :
  path_stem (t "caps/run.1.pcap") ++ t ".csv" = t "run.1.csv".
Proof.
  apply (outfile_replaces_extension (t "caps/") (t "run.1") (t "pcap"));
    [right; exists (t "caps"); reflexivity|discriminate|discriminate|
     vm_compute; intuition discriminate ..].
Defined.

(** ** The fields table and the written CSV text *)

Lemma dict_set_In (d : list (text * text)) (k v k' v' : text) :
  NoDup (map fst d) ->
  In (k', v') (dict_set d k v) <-> (k' = k /\ v' = v) \/ (k' <> k /\ In (k', v') d).
Proof.
  induction d as [|[a b] r IH]; intros Hnd; simpl.
  - split; [intros [E|[]]; injection E as <- <-; by left|].
    intros [[-> ->]|[_ []]]; by left.
  - inversion Hnd as [|x y Ha Hr]; subst.
    destruct (bool_decide_reflect (a = k)) as [->|E]; simpl.
    + split.
      * intros [Ep|Hin]; [injection Ep as <- <-; by left|].
        right. split; [|by right]. intros ->. apply Ha.
        apply list_elem_of_In. apply in_map_iff. by exists (k, v').
      * intros [[-> ->]|[Hne [Ep|Hin]]]; [by left|congruence|by right].
    + rewrite (IH Hr). split.
      * intros [Ep|[[-> ->]|[Hne Hin]]].
        -- injection Ep as <- <-. right. split; [done|by left].
        -- by left.
        -- right. split; [done|by right].
      * intros [[-> ->]|[Hne [Ep|Hin]]].
        -- right. by left.
        -- left. done.
        -- right. right. by split.
Qed.

Lemma dict_set_nodup (d : list (text * text)) (k v : text) :
  NoDup (map fst d) -> NoDup (map fst (dict_set d k v)).
Proof.
  intros Hnd. rewrite dict_set_keys. case_bool_decide; [done|].
  apply NoDup_app. split; [done|]. split; [|apply NoDup_singleton].
  intros x Hx Hk. apply list_elem_of_singleton in Hk. by subst.
Qed.

Lemma fields_table_go_In (items : list Item) (d : list (text * text)) (k v : text) :
  NoDup (map fst d) ->
  In (k, v) (fold_left (fun d it => dict_set d (Key it) (Value it)) items d) <->
  match last (map Value (List.filter (fun it => bool_decide (Key it = k)) items)) with
  | Some w => v = w
  | None => In (k, v) d
  end.
Proof.
  revert d. induction items as [|it r IH]; intros d Hnd; simpl; [done|].
  rewrite (IH _ (dict_set_nodup _ _ _ Hnd)).
  destruct (last (map Value (List.filter (fun it => bool_decide (Key it = k)) r)))
    as [w|] eqn:El.
  - assert (Hl : forall (x : text) l, last l = Some w -> last (x :: l) = Some w)
      by (intros x [|y l] H; [done|exact H]).
    destruct (bool_decide (Key it = k)); [|by rewrite El].
    rewrite map_cons, (Hl _ _ El). done.
  - apply last_None in El.
    rewrite (dict_set_In _ _ _ _ _ Hnd).
    destruct (bool_decide_reflect (Key it = k)) as [<-|Hne]; cbn iota.
    + rewrite map_cons, El. simpl.
      split; [intros [[_ ->]|[Hne _]]; [done|congruence]|intros ->; by left].
    + rewrite El. split; [intros [[-> _]|[_ H]]; [congruence|done]|].
      intros H. right. split; [congruence|done].
Qed.

(** The dict comprehension of line 18 keeps one entry per key, and the
    value stored for a key is the [Value] of the last item with that key:
    later items overwrite earlier ones. *)
Theorem fields_table_last_value (items : list Item) :
  NoDup (map fst (fields_table_of items)) /\
  forall k v, In (k, v) (fields_table_of items) <->
    last (map Value (List.filter (fun it => bool_decide (Key it = k)) items)) = Some v.
Proof.
  split.
  - unfold fields_table_of. enough (H : forall d, NoDup (map fst d) ->
      NoDup (map fst (fold_left (fun d it => dict_set d (Key it) (Value it)) items d)))
      by (apply H; constructor).
    induction items as [|it r IH]; intros d Hnd; simpl; [done|].
    by apply IH, dict_set_nodup.
  - intros k v. unfold fields_table_of.
    rewrite (fields_table_go_In items [] k v) by constructor.
    destruct (last _); [split; [intros ->|intros E; injection E]; done|].
    split; [intros []|discriminate].
Qed.

Definition csv_special (c : Z) : bool :=
  (c =? semicolon) || (c =? dquote) || (c =? 13) || (c =? 10).

Lemma stop_unique (f1 f2 : text) (c1 c2 : Z) (s1 s2 : text) :
  existsb csv_special f1 = false -> existsb csv_special f2 = false ->
  csv_special c1 = true -> csv_special c2 = true ->
  f1 ++ c1 :: s1 = f2 ++ c2 :: s2 -> f1 = f2 /\ c1 = c2 /\ s1 = s2.
Proof.
  revert f2. induction f1 as [|x r IH]; intros [|y r2] H1 H2 Hc1 Hc2 E; simpl in *.
  - by injection E.
  - injection E as -> _. by rewrite Hc1 in H2.
  - injection E as -> _. by rewrite Hc2 in H1.
  - injection E as -> E. apply orb_false_iff in H1 as [_ H1].
    apply orb_false_iff in H2 as [_ H2].
    destruct (IH r2 H1 H2 Hc1 Hc2 E) as (-> & -> & ->). done.
Qed.

Lemma esc_cons (c : Z) (f : text) :
  esc (c :: f) = (if c =? dquote then [dquote; dquote] else [c]) ++ esc f.
Proof. done. Qed.

Lemma esc_unique (f1 f2 : text) (c1 c2 : Z) (s1 s2 : text) :
  c1 <> dquote -> c2 <> dquote ->
  esc f1 ++ dquote :: c1 :: s1 = esc f2 ++ dquote :: c2 :: s2 ->
  f1 = f2 /\ c1 = c2 /\ s1 = s2.
Proof.
  revert f2. induction f1 as [|x r IH]; intros [|y r2] Hc1 Hc2 E;
    rewrite ?esc_cons in E; simpl in E.
  - by injection E.
  - destruct (Z.eqb_spec y dquote) as [->|Hy]; simpl in E; injection E; congruence.
  - destruct (Z.eqb_spec x dquote) as [->|Hx]; simpl in E; injection E; congruence.
  - destruct (Z.eqb_spec x dquote) as [->|Hx], (Z.eqb_spec y dquote) as [->|Hy];
      simpl in E; injection E; try congruence.
    + intros E'. destruct (IH r2 Hc1 Hc2 E') as (-> & -> & ->). done.
    + intros E' ->. destruct (IH r2 Hc1 Hc2 E') as (-> & -> & ->). done.
Qed.

Lemma needs_quotes_special (f : text) : needs_quotes f = existsb csv_special f.
Proof. done. Qed.

Lemma encode_field_quoted (f : text) :
  needs_quotes f = true -> encode_field f = dquote :: esc f ++ [dquote].
Proof. unfold encode_field. intros ->. done. Qed.

Lemma encode_field_plain (f : text) :
  needs_quotes f = false -> encode_field f = f.
Proof. unfold encode_field. intros ->. done. Qed.

Lemma field_unique (f1 f2 : text) (c1 c2 : Z) (s1 s2 : text) :
  (c1 = semicolon \/ c1 = 13) -> (c2 = semicolon \/ c2 = 13) ->
  encode_field f1 ++ c1 :: s1 = encode_field f2 ++ c2 :: s2 ->
  f1 = f2 /\ c1 = c2 /\ s1 = s2.
Proof.
  intros Hc1 Hc2 E.
  assert (Hq1 : c1 <> dquote) by (unfold semicolon, dquote in *; lia).
  assert (Hq2 : c2 <> dquote) by (unfold semicolon, dquote in *; lia).
  destruct (needs_quotes f1) eqn:N1, (needs_quotes f2) eqn:N2;
    rewrite ?(encode_field_quoted f1), ?(encode_field_quoted f2),
      ?(encode_field_plain f1), ?(encode_field_plain f2) in E by done.
  - simpl in E. injection E as E. rewrite <- !app_assoc in E. simpl in E.
    destruct (esc_unique f1 f2 c1 c2 s1 s2 Hq1 Hq2 E) as (-> & -> & ->). done.
  - exfalso. destruct f2 as [|y r2]; simpl in E; injection E as E; [congruence|].
    subst y. rewrite needs_quotes_special in N2. simpl in N2. done.
  - exfalso. destruct f1 as [|x r1]; simpl in E; injection E as E; [congruence|].
    subst x. rewrite needs_quotes_special in N1. simpl in N1. done.
  - rewrite needs_quotes_special in N1, N2.
    apply (stop_unique f1 f2 c1 c2 s1 s2 N1 N2); [| |done]; unfold csv_special.
    + destruct Hc1 as [-> | ->]; done.
    + destruct Hc2 as [-> | ->]; done.
Qed.

Lemma fields_unique (r1 r2 : list text) (s1 s2 : text) :
  r1 <> [] -> r2 <> [] -> fields_enc r1 ++ s1 = fields_enc r2 ++ s2 ->
  r1 = r2 /\ s1 = s2.
Proof.
  revert r2 s1 s2. induction r1 as [|f1 fs1 IH]; intros r2 s1 s2 H1 H2 E; [done|].
  destruct r2 as [|f2 fs2]; [done|]. simpl in E. rewrite <- !app_assoc in E.
  destruct fs1 as [|g1 gs1], fs2 as [|g2 gs2]; simpl in E.
  - destruct (field_unique f1 f2 13 13 (10 :: s1) (10 :: s2)) as (-> & _ & E');
      [right; done|right; done|done|].
    injection E' as ->. done.
  - destruct (field_unique f1 f2 13 semicolon (10 :: s1) (fields_enc (g2 :: gs2) ++ s2))
      as (_ & Hc & _); [right; done|left; done|done|discriminate].
  - destruct (field_unique f1 f2 semicolon 13 (fields_enc (g1 :: gs1) ++ s1) (10 :: s2))
      as (_ & Hc & _); [left; done|right; done|done|discriminate].
  - destruct (field_unique f1 f2 semicolon semicolon (fields_enc (g1 :: gs1) ++ s1)
      (fields_enc (g2 :: gs2) ++ s2)) as (-> & _ & E'); [left; done|left; done|done|].
    destruct (IH (g2 :: gs2) s1 s2) as [[= -> ->] ->]; done.
Qed.

Lemma join_fields_enc (r : list text) :
  r <> [] -> join [semicolon] (map encode_field r) ++ [13; 10] = fields_enc r.
Proof.
  induction r as [|f fs IH]; intros H; [done|].
  destruct fs as [|g gs]; [done|].
  change (join [semicolon] (map encode_field (f :: g :: gs)))
    with (encode_field f ++ [semicolon] ++ join [semicolon] (map encode_field (g :: gs))).
  rewrite <- !app_assoc, IH by done. done.
Qed.

Lemma row_shape (r : list text) :
  r = [] \/ r = [[]] \/ (r <> [] /\ r <> [[]] /\ encode_row r = fields_enc r).
Proof.
  destruct r as [|f [|g gs]]; [by left| |].
  - destruct f as [|c f]; [right; by left|]. right; right.
    split; [done|]. split; [done|]. apply join_fields_enc. done.
  - right; right. split; [done|]. split; [done|].
    unfold encode_row. destruct f; apply join_fields_enc; done.
Qed.

Lemma fields_enc_head (f : text) (fs : list text) (s : text) :
  exists c X, (c = semicolon \/ c = 13) /\ (c = 13 -> fs = []) /\
    fields_enc (f :: fs) ++ s = encode_field f ++ c :: X.
Proof.
  destruct fs as [|g gs]; simpl.
  - exists 13, (10 :: s). split; [right; done|]. split; [done|].
    by rewrite <- app_assoc.
  - exists semicolon, (fields_enc (g :: gs) ++ s). split; [left; done|].
    split; [discriminate|]. by rewrite <- app_assoc.
Qed.

Lemma row_vs_fields (z1 z2 : Z) (s1 : text) (f : text) (fs : list text) (s2 : text) :
  (z1 = 13 /\ z2 = 10 \/ z1 = dquote /\ z2 = dquote) ->
  f :: fs <> [[]] ->
  z1 :: z2 :: (if z1 =? dquote then [13; 10] else []) ++ s1 <> fields_enc (f :: fs) ++ s2.
Proof.
  intros Hz Hr E.
  destruct (fields_enc_head f fs s2) as (c & X & Hc & Hc13 & EX). rewrite EX in E.
  destruct (needs_quotes f) eqn:N.
  - rewrite encode_field_quoted in E by done. simpl in E.
    destruct Hz as [[-> ->]|[-> ->]]; injection E as E; [discriminate|].
    rewrite <- app_assoc in E. simpl in E.
    assert (Hq : c <> dquote) by (unfold dquote, semicolon in *; lia).
    destruct (esc_unique [] f 13 c (10 :: s1) X) as (<- & _);
      [unfold dquote; lia|done|exact E|done].
  - rewrite encode_field_plain in E by done.
    destruct f as [|x r].
    + simpl in E. injection E as E1 E2.
      destruct Hz as [[-> ->]|[-> ->]].
      * subst c. apply Hr. by rewrite (Hc13 eq_refl).
      * unfold dquote, semicolon in *; lia.
    + simpl in E. injection E as E1 _. subst x.
      rewrite needs_quotes_special in N. simpl in N.
      destruct Hz as [[-> _]|[-> _]]; done.
Qed.

Lemma row_unique (r1 r2 : list text) (s1 s2 : text) :
  encode_row r1 ++ s1 = encode_row r2 ++ s2 -> r1 = r2 /\ s1 = s2.
Proof.
  intros E.
  destruct (row_shape r1) as [->|[->|(H1 & H1' & E1)]],
           (row_shape r2) as [->|[->|(H2 & H2' & E2)]]; simpl in E.
  - by injection E.
  - discriminate.
  - destruct r2 as [|f fs]; [done|]. rewrite E2 in E. exfalso.
    apply (row_vs_fields 13 10 s1 f fs s2); [by left|done|done].
  - discriminate.
  - by injection E.
  - destruct r2 as [|f fs]; [done|]. rewrite E2 in E. exfalso.
    apply (row_vs_fields dquote dquote s1 f fs s2); [by right|done|done].
  - destruct r1 as [|f fs]; [done|]. rewrite E1 in E. exfalso.
    apply (row_vs_fields 13 10 s2 f fs s1); [by left|done|done].
  - destruct r1 as [|f fs]; [done|]. rewrite E1 in E. exfalso.
    apply (row_vs_fields dquote dquote s2 f fs s1); [by right|done|done].
  - rewrite E1, E2 in E. by apply fields_unique.
Qed.

Lemma encode_row_nonempty (r : list text) : encode_row r <> [].
Proof.
  unfold encode_row. destruct r as [|[|c f] [|g gs]]; try done;
    intros E; apply app_eq_nil in E as [_ E]; done.
Qed.

(** The CSV text written by [csv.writer] determines the rows: two lists
    of rows that are written as the same text are equal. *)
Theorem encode_rows_injective (rows1 rows2 : list (list text)) :
  encode_rows rows1 = encode_rows rows2 -> rows1 = rows2.
Proof.
  unfold encode_rows. revert rows2.
  induction rows1 as [|r1 rs1 IH]; intros [|r2 rs2] E; simpl in E.
  - done.
  - symmetry in E. apply app_eq_nil in E as [E _]. by apply encode_row_nonempty in E.
  - apply app_eq_nil in E as [E _]. by apply encode_row_nonempty in E.
  - destruct (row_unique r1 r2 _ _ E) as [-> E']. f_equal. by apply IH.
Qed.

Lemma encode_rows_injective_witness :
  encode_rows [[t "1"; [34; 59]]; [[]]] = encode_rows [[t "1"; [34; 59]]; [[]]] /\
  [[t "1"; [34; 59]]; [[]]] = [[t "1"; [34; 59]]; [[]]].
Proof.
  split; [reflexivity|].
  apply (encode_rows_injective [[t "1"; [34; 59]]; [[]]] [[t "1"; [34; 59]]; [[]]]).
  reflexivity.
Defined.

(** ** Directory mode: the workers *)

Lemma generate_absent (j : Job) (tshark : list text -> Proc) (el : text) (fs : FS) :
  categories (config j) !! category j = None ->
  generate_data_from_pcap j tshark el fs = (inl TypeError, fs).
Proof. intros H. unfold generate_data_from_pcap, resolve_fields. by rewrite H. Qed.

Lemma generate_present (j : Job) (tshark : list text -> Proc) (el : text) (fs : FS)
  (items : list Item) :
  categories (config j) !! category j = Some items ->
  exists m fs', generate_data_from_pcap j tshark el fs = (inr m, fs').
Proof.
  intros H. unfold generate_data_from_pcap, resolve_fields. rewrite H.
  destruct (fields_table_of items); [by eexists _, _|].
  destruct (negb _); [by eexists _, _|].
  destruct (strip _); by eexists _, _.
Qed.

Lemma generate_frame (j : Job) (tshark : list text -> Proc) (el : text) (fs : FS) (o : text) :
  o <> path_stem (filename j) ++ t ".csv" ->
  snd (generate_data_from_pcap j tshark el fs) !! o = fs !! o.
Proof.
  intros Ho. unfold generate_data_from_pcap.
  destruct (resolve_fields (config j) (category j)) as [e|[msg|ft]]; [done|done|].
  set (p := tshark _).
  destruct (negb (returncode p =? 0)); [done|].
  destruct (strip (translate_newlines (proc_stdout p))); [done|].
  simpl. by rewrite lookup_insert_ne by congruence.
Qed.

Lemma run_jobs_frame (tshark : list text -> Proc) (js : list Job) (tm : nat -> text) (o : text) :
  (forall j, In j js -> o <> path_stem (filename j) ++ t ".csv") ->
  forall order fs, snd (run_jobs tshark js order tm fs) !! o = fs !! o.
Proof.
  intros Ho order. induction order as [|i rest IH]; intros fs; simpl; [done|].
  destruct (nth_error js i) as [j|] eqn:Ej; [|apply IH].
  destruct (generate_data_from_pcap j tshark (tm i) fs) as [r fs1] eqn:Eg.
  destruct (run_jobs tshark js rest tm fs1) as [rs fs2] eqn:Er. simpl.
  replace fs2 with (snd (run_jobs tshark js rest tm fs1)) by (rewrite Er; done).
  rewrite IH. replace fs1 with (snd (generate_data_from_pcap j tshark (tm i) fs))
    by (rewrite Eg; done).
  apply generate_frame, Ho. eapply nth_error_In. exact Ej.
Qed.

Lemma run_jobs_absent (tshark : list text -> Proc) (js : list Job) (tm : nat -> text) :
  (forall j, In j js -> categories (config j) !! category j = None) ->
  forall order fs, exists k,
    run_jobs tshark js order tm fs = (repeat (inl TypeError) k, fs) /\
    ((exists i rest, order = i :: rest /\ (i < length js)%nat) -> k <> O).
Proof.
  intros Hall order. induction order as [|i rest IH]; intros fs.
  - exists O. split; [done|]. intros (i & rest & E & _). discriminate.
  - simpl. destruct (nth_error js i) as [j|] eqn:Ej.
    + rewrite generate_absent by (apply Hall; eapply nth_error_In; exact Ej).
      destruct (IH fs) as (k & Ek & _). rewrite Ek.
      exists (S k). split; [done|]. intros _. done.
    + destruct (IH fs) as (k & Ek & _). exists k. split; [done|].
      intros (i' & rest' & E & Hi). injection E as <- <-.
      apply nth_error_Some in Hi. done.
Qed.

Lemma run_jobs_present (tshark : list text -> Proc) (js : list Job) (tm : nat -> text) :
  (forall j, In j js -> exists items, categories (config j) !! category j = Some items) ->
  forall order fs, (forall i, In i order -> (i < length js)%nat) ->
  exists msgs fs', run_jobs tshark js order tm fs = (map inr msgs, fs') /\
                   length msgs = length order.
Proof.
  intros Hall order. induction order as [|i rest IH]; intros fs Hord.
  - by exists [], fs.
  - simpl. destruct (nth_error js i) as [j|] eqn:Ej.
    2: { exfalso. apply nth_error_Some in Ej; [done|]. apply Hord. by left. }
    destruct (Hall j) as [items Hi]; [eapply nth_error_In; exact Ej|].
    destruct (generate_present j tshark (tm i) fs items Hi) as (m & fs1 & Eg).
    rewrite Eg. simpl.
    destruct (IH fs1) as (msgs & fs' & E & L); [intros i' H'; apply Hord; by right|].
    rewrite E. exists (m :: msgs), fs'. split; [done|]. simpl. lia.
Qed.

Lemma print_results_all_ok (msgs : list text) :
  print_results (map inr msgs) = (map Print msgs, None).
Proof. induction msgs as [|m r IH]; simpl; [done|]. by rewrite IH. Qed.

Lemma completion_valid (pool : Pool) (n : nat) (i : nat) :
  Permutation (completion pool) (seq 0 n) -> In i (completion pool) -> (i < n)%nat.
Proof.
  intros Hp Hi. apply (Permutation_in _ Hp) in Hi. apply in_seq in Hi. lia.
Qed.

(** Directory mode (directory name free of glob magic characters) with at
    least one visible entry, a positive pool size and a category absent
    from the configuration: every job is submitted, each worker raises
    [TypeError], and the first [future.result()] re-raises it: no result
    and no final line is printed, and no file is written. *)
Theorem pcap_asterix_directory_absent_category (cpu_count : option Z) (dflt : Z)
  (cfg : Config) (a : Args) (listing : list text) (pool : Pool)
  (tshark : list text -> Proc) (elapsed : text) (fs : FS) (d : text) :
  default_jobs cpu_count = inr dflt ->
  truthy (arg_file a) = false ->
  arg_directory a = Some d ->
  d <> [] ->
  has_magic d = false ->
  filter (fun n => negb (is_hidden n)) listing <> [] ->
  0 < default dflt (arg_jobs a) ->
  categories cfg !! arg_category a = None ->
  Permutation (completion pool) (seq 0 (length (filter (fun n => negb (is_hidden n)) listing))) ->
  exists header,
    pcap_asterix cpu_count cfg a listing pool tshark elapsed fs =
    (Print header ::
       map (fun n => Submit {| filename := path_join (glob_dirname d) n;
                               category := arg_category a;
                               timestamp := arg_timestamp a; config := cfg |})
           (filter (fun n => negb (is_hidden n)) listing),
     Some TypeError, fs).
Proof.
  intros Hj Hf Hd Hne _ Hv Hpos Hc Hp.
  rewrite (pcap_asterix_directory cpu_count dflt cfg a listing pool tshark elapsed fs d)
    by done.
  unfold directory_mode, glob_star.
  destruct (map (path_join (glob_dirname d)) _) as [|f fs0] eqn:Em.
  { apply map_eq_nil in Em. done. }
  assert (Hlen : length (f :: fs0) = length (filter (fun n => negb (is_hidden n)) listing))
    by (rewrite <- Em, length_map; done).
  rewrite (proj2 (Z.leb_gt _ _) Hpos).
  set (js := map (fun f0 => {| filename := f0; category := arg_category a;
                               timestamp := arg_timestamp a; config := cfg |}) (f :: fs0)).
  destruct (run_jobs_absent tshark js (job_elapsed pool))
    with (order := completion pool) (fs := fs) as (k & Ek & Hk).
  { intros j Hjs. unfold js in Hjs. apply in_map_iff in Hjs as [x [<- _]]. exact Hc. }
  rewrite Ek.
  destruct k as [|k].
  { exfalso. apply Hk; [|reflexivity].
    destruct (completion pool) as [|i rest] eqn:Ec.
    - apply Permutation_length in Hp. rewrite length_seq in Hp. simpl in Hp.
      rewrite <- Hp in Hlen. done.
    - exists i, rest. split; [done|]. unfold js. rewrite length_map, Hlen.
      apply (completion_valid pool); [rewrite Ec; exact Hp|rewrite Ec; left; done]. }
  unfold js. rewrite <- Em, !map_map. cbn [repeat print_results].
  rewrite !app_nil_r. eexists. reflexivity.
Qed.

Lemma pcap_asterix_directory_absent_category_witness :
  exists header,
    pcap_asterix (Some 8) cfg48
      {| arg_file := None; arg_directory := Some (t "caps"); arg_category := t "62";
         arg_timestamp := false; arg_jobs := None |}
      [t "a.pcap"; t "b.pcap"] (pool_in [1; 0]%nat) (decoder 0 (t "1;2" ++ nl) [])
      (t "0.00") ∅ =
    (Print header ::
       [Submit {| filename := t "caps/a.pcap"; category := t "62"; timestamp := false;
                  config := cfg48 |};
        Submit {| filename := t "caps/b.pcap"; category := t "62"; timestamp := false;
                  config := cfg48 |}], Some TypeError, ∅).
Proof.
  destruct (pcap_asterix_directory_absent_category (Some 8) 4 cfg48
              {| arg_file := None; arg_directory := Some (t "caps"); arg_category := t "62";
                 arg_timestamp := false; arg_jobs := None |}
              [t "a.pcap"; t "b.pcap"] (pool_in [1; 0]%nat) (decoder 0 (t "1;2" ++ nl) [])
              (t "0.00") ∅ (t "caps")) as [header H];
    [reflexivity|reflexivity|reflexivity|discriminate|reflexivity|vm_compute; discriminate
    |vm_compute; reflexivity|reflexivity|vm_compute; apply perm_swap|].
  exists header. rewrite H. reflexivity.
Defined.

(** Directory mode (directory name free of glob magic characters), for
    every pool size and completion order: a file whose name is not
    [<stem>.csv] for the path of some visible entry keeps its content. *)
Theorem pcap_asterix_directory_frame (cpu_count : option Z) (dflt : Z) (cfg : Config)
  (a : Args) (listing : list text) (pool : Pool) (tshark : list text -> Proc)
  (elapsed : text) (fs : FS) (d o : text) :
  default_jobs cpu_count = inr dflt ->
  truthy (arg_file a) = false ->
  arg_directory a = Some d ->
  d <> [] ->
  has_magic d = false ->
  (forall n, In n (filter (fun n => negb (is_hidden n)) listing) ->
             o <> path_stem (path_join (glob_dirname d) n) ++ t ".csv") ->
  snd (pcap_asterix cpu_count cfg a listing pool tshark elapsed fs) !! o = fs !! o.
Proof.
  intros Hj Hf Hd Hne _ Ho.
  rewrite (pcap_asterix_directory cpu_count dflt cfg a listing pool tshark elapsed fs d)
    by done.
  unfold directory_mode, glob_star.
  destruct (map (path_join (glob_dirname d)) _) as [|f fs0] eqn:Em; [done|].
  destruct (_ <=? 0); [done|].
  set (js := map (fun f0 => {| filename := f0; category := arg_category a;
                               timestamp := arg_timestamp a; config := cfg |}) (f :: fs0)).
  destruct (run_jobs tshark js (completion pool) (job_elapsed pool) fs) as [rs fs'] eqn:Er.
  destruct (print_results rs) as [evs e]. simpl.
  replace fs' with (snd (run_jobs tshark js (completion pool) (job_elapsed pool) fs))
    by (rewrite Er; done).
  apply run_jobs_frame. intros j Hjs. unfold js in Hjs.
  apply in_map_iff in Hjs as [x [<- Hx]]. simpl. rewrite <- Em in Hx.
  apply in_map_iff in Hx as [n [<- Hn]]. by apply Ho.
Qed.

Lemma pcap_asterix_directory_frame_witness :
  snd (pcap_asterix (Some 8) cfg48 (args_dir (t "caps")) [t "a.pcap"; t "b.pcap"]
         (pool_in [0; 1]%nat) (decoder 0 (t "1;2" ++ nl) []) (t "0.00")
         (<[t "notes.csv" := t "x"]> ∅)) !! t "notes.csv" = Some (t "x").
Proof.
  rewrite (pcap_asterix_directory_frame (Some 8) 4 cfg48 (args_dir (t "caps")) _ _ _ _ _
             (t "caps")); [reflexivity|reflexivity|reflexivity|reflexivity|discriminate
                          |reflexivity|].
  intros n Hn. vm_compute in Hn. vm_compute.
  destruct Hn as [<-|[<-|[]]]; discriminate.
Defined.

(** Directory mode (directory name free of glob magic characters) with at
    least one visible entry, a positive pool size, a configured category
    and a completion order that yields every job once: nothing is raised,
    one result line is printed per job after the submissions, then the
    final line. *)
Theorem pcap_asterix_directory_all_printed (cpu_count : option Z) (dflt : Z)
  (cfg : Config) (a : Args) (listing : list text) (pool : Pool)
  (tshark : list text -> Proc) (elapsed : text) (fs : FS) (d : text) (items : list Item) :
  default_jobs cpu_count = inr dflt ->
  truthy (arg_file a) = false ->
  arg_directory a = Some d ->
  d <> [] ->
  has_magic d = false ->
  filter (fun n => negb (is_hidden n)) listing <> [] ->
  0 < default dflt (arg_jobs a) ->
  categories cfg !! arg_category a = Some items ->
  Permutation (completion pool) (seq 0 (length (filter (fun n => negb (is_hidden n)) listing))) ->
  exists header msgs fs',
    pcap_asterix cpu_count cfg a listing pool tshark elapsed fs =
    (Print header ::
       map (fun n => Submit {| filename := path_join (glob_dirname d) n;
                               category := arg_category a;
                               timestamp := arg_timestamp a; config := cfg |})
           (filter (fun n => negb (is_hidden n)) listing) ++
       map Print msgs ++ [Print ([10; 10004] ++ t " Finalizado em " ++ elapsed ++ t "s")],
     None, fs') /\
    length msgs = length (filter (fun n => negb (is_hidden n)) listing).
Proof.
  intros Hj Hf Hd Hne _ Hv Hpos Hc Hp.
  rewrite (pcap_asterix_directory cpu_count dflt cfg a listing pool tshark elapsed fs d)
    by done.
  unfold directory_mode, glob_star.
  destruct (map (path_join (glob_dirname d)) _) as [|f fs0] eqn:Em.
  { apply map_eq_nil in Em. done. }
  assert (Hlen : length (f :: fs0) = length (filter (fun n => negb (is_hidden n)) listing))
    by (rewrite <- Em, length_map; done).
  rewrite (proj2 (Z.leb_gt _ _) Hpos).
  set (js := map (fun f0 => {| filename := f0; category := arg_category a;
                               timestamp := arg_timestamp a; config := cfg |}) (f :: fs0)).
  destruct (run_jobs_present tshark js (job_elapsed pool))
    with (order := completion pool) (fs := fs) as (msgs & fs' & E & L).
  { intros j Hjs. unfold js in Hjs. apply in_map_iff in Hjs as [x [<- _]]. by exists items. }
  { intros i Hi. unfold js. rewrite length_map, Hlen. exact (completion_valid pool _ i Hp Hi). }
  rewrite E, print_results_all_ok.
  eexists _, msgs, fs'. split.
  - unfold js. rewrite <- Em, !map_map. reflexivity.
  - rewrite L. apply Permutation_length in Hp. by rewrite Hp, length_seq.
Qed.

Lemma pcap_asterix_directory_all_printed_witness :
  exists header msgs fs',
    pcap_asterix (Some 8) cfg48 (args_dir (t "caps")) [t "a.pcap"; t "b.pcap"]
      (pool_in [1; 0]%nat) (decoder 0 (t "1;2" ++ nl) []) (t "0.00") ∅ =
    (Print header ::
       [Submit {| filename := t "caps/a.pcap"; category := t "48"; timestamp := false;
                  config := cfg48 |};
        Submit {| filename := t "caps/b.pcap"; category := t "48"; timestamp := false;
                  config := cfg48 |}] ++
       map Print msgs ++ [Print ([10; 10004] ++ t " Finalizado em " ++ t "0.00" ++ t "s")],
     None, fs') /\ length msgs = 2%nat.
Proof.
  destruct (pcap_asterix_directory_all_printed (Some 8) 4 cfg48 (args_dir (t "caps"))
              [t "a.pcap"; t "b.pcap"] (pool_in [1; 0]%nat) (decoder 0 (t "1;2" ++ nl) [])
              (t "0.00") ∅ (t "caps") [item (t "SAC") (t "010.SAC"); item (t "SIC") (t "010.SIC")])
    as (header & msgs & fs' & H & L);
    [reflexivity|reflexivity|reflexivity|discriminate|reflexivity|vm_compute; discriminate
    |vm_compute; reflexivity|vm_compute; reflexivity|vm_compute; apply perm_swap|].
  exists header, msgs, fs'. split; [rewrite H; reflexivity|exact L].
Defined.
